(** * Smart TTS wrapper (smart-tts/index.js): language detection and the
      synthesis invocation contract.

    The development embeds the two exported functions of [index.js],
    [detectLanguage] and [synthesize], and the command-line entry point of
    the module.

    - A JavaScript string is a sequence of UTF-16 code units; the regular
      expressions of [detectLanguage] carry no [u] flag, so they are matched
      code unit by code unit.
    - [synthesize] builds a promise that is settled by the event handlers
      it installs on the child process; the handlers are run over a trace
      of what the world does from the call to [spawn] on (an exception of
      the call, stderr chunks as buffers, file creation, exit). *)

From Stdlib Require Import ZArith List Bool Ascii String Lia.
From stdpp Require Import base option list strings gmap pretty.
Import ListNotations.

Local Open Scope Z_scope.

(* ===================================================================== *)
(** ** JavaScript strings                                                *)
(* ===================================================================== *)

Module JS.

(** A string value: its UTF-16 code units, each in [0, 0xFFFF]. *)
Definition jsstring := list Z.

(** An ASCII string literal of the source. *)
Definition lit (s : string) : jsstring :=
  map (fun a => Z.of_N (N_of_ascii a)) (list_ascii_of_string s).

(** The code units of one Unicode code point (a surrogate pair above the
    Basic Multilingual Plane). *)
Definition utf16_units (cp : Z) : list Z :=
  if cp <? 0x10000 then [cp]
  else
    let v := cp - 0x10000 in
    [0xD800 + Z.shiftr v 10; 0xDC00 + Z.land v 0x3FF].

(** A string given by its code points. *)
Definition utf16 (cps : list Z) : jsstring := flat_map utf16_units cps.

(** [String.prototype.startsWith] for a one-unit search string. *)
Definition startsWith (s : jsstring) (c : Z) : bool :=
  match s with
  | [] => false
  | x :: _ => x =? c
  end.

(** [Array.prototype.join]: the elements separated by [sep]. *)
Fixpoint join (sep : jsstring) (xs : list jsstring) : jsstring :=
  match xs with
  | [] => []
  | [x] => x
  | x :: rest => x ++ sep ++ join sep rest
  end.

(** [Array.prototype.includes] on an array of strings. *)
Definition includes (xs : list jsstring) (x : jsstring) : bool :=
  bool_decide (x ∈ xs).


End JS.

Import JS.

(* ===================================================================== *)
(** ** Regular expressions of the source: one bracket class, no flags    *)
(* ===================================================================== *)

Module Regex.

(** An item of a bracket expression: a range [lo-hi] or a single unit. *)
Inductive class_item : Type :=
  | CRange (lo hi : Z)
  | CChar (c : Z).

(** The pattern [/[...]/]: a single character class. *)
Definition char_class := list class_item.

Definition item_matches (it : class_item) (c : Z) : bool :=
  match it with
  | CRange lo hi => (lo <=? c) && (c <=? hi)
  | CChar x => c =? x
  end.

Definition class_matches (cls : char_class) (c : Z) : bool :=
  existsb (fun it => item_matches it c) cls.

(** [RegExp.prototype.test] for a pattern without [g] or [y]: the search
    starts at index 0 on every call and succeeds at the first unit that
    belongs to the class. *)
Fixpoint test (cls : char_class) (text : jsstring) : bool :=
  match text with
  | [] => false
  | c :: rest => class_matches cls c || test cls rest
  end.

End Regex.

(* ===================================================================== *)
(** ** detectLanguage                                                    *)
(* ===================================================================== *)

(** The return type ['zh' | 'en' | 'ja' | 'yue' | 'neutral']. *)
Inductive LanguageTag : Type := zh | en | ja | yue | neutral.

(** The string each tag stands for in the source. *)
Definition tag_string (t : LanguageTag) : jsstring :=
  match t with
  | zh => lit "zh"
  | en => lit "en"
  | ja => lit "ja"
  | yue => lit "yue"
  | neutral => lit "neutral"
  end.

(** [/[\u3040-\u309F\u30A0-\u30FF]/] *)
Definition re_kana : Regex.char_class :=
  [Regex.CRange 0x3040 0x309F; Regex.CRange 0x30A0 0x30FF].

(** The Cantonese markers, in the order of the source's bracket class. *)
Definition re_cantonese : Regex.char_class :=
  [Regex.CChar 0x4FC2; Regex.CChar 0x5514; Regex.CChar 0x4F62;
   Regex.CChar 0x5605; Regex.CChar 0x5187; Regex.CChar 0x7747;
   Regex.CChar 0x5497; Regex.CChar 0x569F; Regex.CChar 0x55BA;
   Regex.CChar 0x54CB; Regex.CChar 0x4FFE; Regex.CChar 0x8AD7;
   Regex.CChar 0x4E5C; Regex.CChar 0x5622; Regex.CChar 0x5481;
   Regex.CChar 0x558E].

(** [/[\u4E00-\u9FFF]/] *)
Definition re_hanzi : Regex.char_class := [Regex.CRange 0x4E00 0x9FFF].

(** [/[a-zA-Z]/] *)
Definition re_latin : Regex.char_class :=
  [Regex.CRange 97 122; Regex.CRange 65 90].

Definition detectLanguage (text : jsstring) : LanguageTag :=
  if Regex.test re_kana text then ja
  else if Regex.test re_cantonese text then yue
  else if Regex.test re_hanzi text then zh
  else if Regex.test re_latin text then en
  else neutral.

(* ===================================================================== *)
(** ** The classifier as the specification words it                      *)
(* ===================================================================== *)

Module Spec.

Definition in_block (lo hi c : Z) : bool := (lo <=? c) && (c <=? hi).

(** The Hiragana block U+3040..U+309F and the Katakana block
    U+30A0..U+30FF. *)
Definition is_hiragana (c : Z) : bool := in_block 0x3040 0x309F c.
Definition is_katakana (c : Z) : bool := in_block 0x30A0 0x30FF c.
Definition is_kana (c : Z) : bool := is_hiragana c || is_katakana c.

(** The fixed closed set of Cantonese markers. *)
Definition cantonese_markers : list Z :=
  [0x4FC2; 0x5514; 0x4F62; 0x5605; 0x5187; 0x7747; 0x5497; 0x569F;
   0x55BA; 0x54CB; 0x4FFE; 0x8AD7; 0x4E5C; 0x5622; 0x5481; 0x558E].

Definition is_cantonese_marker (c : Z) : bool :=
  bool_decide (c ∈ cantonese_markers).

(** The CJK Unified Ideographs block U+4E00..U+9FFF. *)
Definition is_han (c : Z) : bool := in_block 0x4E00 0x9FFF c.

(** A Latin ASCII letter, A-Z or a-z. *)
Definition is_ascii_letter (c : Z) : bool :=
  in_block 65 90 c || in_block 97 122 c.

(** "text contains any character such that ..." *)
Definition contains (p : Z -> bool) (text : list Z) : bool := existsb p text.

(** The ordered list of (predicate, tag) pairs. *)
Definition priority_rules : list ((Z -> bool) * LanguageTag) :=
  [(is_kana, ja); (is_cantonese_marker, yue); (is_han, zh);
   (is_ascii_letter, en)].

(** First match wins; no match is [neutral]. *)
Fixpoint first_match (rules : list ((Z -> bool) * LanguageTag))
    (text : list Z) : LanguageTag :=
  match rules with
  | [] => neutral
  | (p, t) :: rest => if contains p text then t else first_match rest text
  end.

Definition classify (text : list Z) : LanguageTag :=
  first_match priority_rules text.

End Spec.

(* ===================================================================== *)
(** ** Promises and errors                                               *)
(* ===================================================================== *)

(** An [Error] object; only its [message] is ever read. *)
Record JsError : Type := MkError { message : jsstring }.

Module Promise.

Inductive state : Type :=
  | Pending
  | Fulfilled (value : jsstring)
  | Rejected (reason : JsError).

(** [resolve] and [reject] of the executor: only the first call settles
    the promise, later calls are ignored. *)
Definition resolve (p : state) (v : jsstring) : state :=
  match p with
  | Pending => Fulfilled v
  | _ => p
  end.

Definition reject (p : state) (e : JsError) : state :=
  match p with
  | Pending => Rejected e
  | _ => p
  end.

End Promise.

(* ===================================================================== *)
(** ** detectLanguage over values, with exceptions and RegExp objects    *)
(* ===================================================================== *)

(** The primitive values an argument can be (numbers, bigints and objects
    are left out: their conversion to a string needs [Number::toString]
    or runs user code). *)
Inductive value : Type :=
  | VUndefined
  | VNull
  | VBoolean (b : bool)
  | VString (s : jsstring)
  | VSymbol (description : jsstring).

(** The outcome of an evaluation: a value is returned or an error is
    thrown. *)
Inductive completion (A : Type) : Type :=
  | Return (v : A)
  | Throw (e : JsError).

Arguments Return {A} v.
Arguments Throw {A} e.

Definition bind {A B : Type} (c : completion A) (k : A -> completion B)
    : completion B :=
  match c with
  | Return v => k v
  | Throw e => Throw e
  end.

(** The abstract operation [ToString]: a symbol cannot be converted. *)
Definition ToString (v : value) : completion jsstring :=
  match v with
  | VUndefined => Return (lit "undefined")
  | VNull => Return (lit "null")
  | VBoolean true => Return (lit "true")
  | VBoolean false => Return (lit "false")
  | VString s => Return s
  | VSymbol _ =>
      Throw (MkError (lit "Cannot convert a Symbol value to a string"))
  end.

(** A RegExp object: its pattern, the flags [g] and [y], and the mutable
    property [lastIndex]. *)
Record RegExp : Type := MkRegExp {
  pattern : Regex.char_class;
  global : bool;
  sticky : bool;
  lastIndex : nat
}.

(** A regular expression literal without flags: a new object, with
    [lastIndex] 0. *)
Definition literal (cls : Regex.char_class) : RegExp :=
  {| pattern := cls; global := false; sticky := false; lastIndex := 0 |}.

Definition set_lastIndex (r : RegExp) (i : nat) : RegExp :=
  {| pattern := pattern r; global := global r; sticky := sticky r;
     lastIndex := i |}.

(** The index of the first unit of [s] in the class, [s] being the part
    of the string that starts at index [i]. *)
Fixpoint search (cls : Regex.char_class) (s : jsstring) (i : nat)
    : option nat :=
  match s with
  | [] => None
  | c :: rest =>
      if Regex.class_matches cls c then Some i else search cls rest (S i)
  end.

(** [RegExpBuiltinExec] for a one-class pattern: whether there is a match,
    and the object afterwards. The search starts at [lastIndex] only under
    [g] or [y], and [lastIndex] is written only under [g] or [y]. *)
Definition RegExpBuiltinExec (r : RegExp) (s : jsstring) : bool * RegExp :=
  let flagged := global r || sticky r in
  let start := if flagged then lastIndex r else 0%nat in
  if (length s <? start)%nat then
    (false, if flagged then set_lastIndex r 0 else r)
  else if sticky r then
    match drop start s with
    | c :: _ =>
        if Regex.class_matches (pattern r) c
        then (true, set_lastIndex r (S start))
        else (false, set_lastIndex r 0)
    | [] => (false, set_lastIndex r 0)
    end
  else
    match search (pattern r) (drop start s) start with
    | Some i => (true, if global r then set_lastIndex r (S i) else r)
    | None => (false, if global r then set_lastIndex r 0 else r)
    end.

(** [RegExp.prototype.test]: the argument is converted with [ToString],
    then matched. *)
Definition RegExp_test (r : RegExp) (v : value)
    : completion (bool * RegExp) :=
  bind (ToString v) (fun s => Return (RegExpBuiltinExec r s)).

(** The body of [detectLanguage], statement by statement: each [if]
    evaluates its literal to a new object and calls [test] on it. *)
Definition detectLanguage_js (text : value) : completion value :=
  bind (RegExp_test (literal re_kana) text) (fun m1 =>
  if fst m1 then Return (VString (lit "ja")) else
  bind (RegExp_test (literal re_cantonese) text) (fun m2 =>
  if fst m2 then Return (VString (lit "yue")) else
  bind (RegExp_test (literal re_hanzi) text) (fun m3 =>
  if fst m3 then Return (VString (lit "zh")) else
  bind (RegExp_test (literal re_latin) text) (fun m4 =>
  if fst m4 then Return (VString (lit "en")) else
  Return (VString (lit "neutral")))))).

(* ===================================================================== *)
(** ** Buffers and their decoding                                        *)
(* ===================================================================== *)

(** A [Buffer]: its bytes, each in [0, 255]. An ASCII text has the same
    bytes as code units, so [lit] also writes an ASCII buffer. *)
Definition Buffer := list Z.

Module Utf8.

(** The state of the UTF-8 decoder between two bytes. *)
Record decoder : Type := MkDecoder {
  code_point : Z;
  bytes_seen : nat;
  bytes_needed : nat;
  lower : Z;
  upper : Z
}.

Definition initial : decoder :=
  {| code_point := 0; bytes_seen := 0; bytes_needed := 0;
     lower := 0x80; upper := 0xBF |}.

(** A byte met outside a sequence: an ASCII byte is a character, a lead
    byte opens a sequence, any other byte is replaced by U+FFFD. *)
Definition start (b : Z) : list Z * decoder :=
  if (0 <=? b) && (b <=? 0x7F) then ([b], initial)
  else if (0xC2 <=? b) && (b <=? 0xDF) then
    ([], {| code_point := Z.land b 0x1F; bytes_seen := 0;
            bytes_needed := 1; lower := 0x80; upper := 0xBF |})
  else if (0xE0 <=? b) && (b <=? 0xEF) then
    ([], {| code_point := Z.land b 0xF; bytes_seen := 0;
            bytes_needed := 2;
            lower := if b =? 0xE0 then 0xA0 else 0x80;
            upper := if b =? 0xED then 0x9F else 0xBF |})
  else if (0xF0 <=? b) && (b <=? 0xF4) then
    ([], {| code_point := Z.land b 0x7; bytes_seen := 0;
            bytes_needed := 3;
            lower := if b =? 0xF0 then 0x90 else 0x80;
            upper := if b =? 0xF4 then 0x8F else 0xBF |})
  else ([0xFFFD], initial).

(** One byte: the code points decoded by it and the next state. A byte
    that cannot continue the open sequence ends it with U+FFFD and is
    then read as the start of what follows. *)
Definition step (d : decoder) (b : Z) : list Z * decoder :=
  if (bytes_needed d =? 0)%nat then start b
  else if (lower d <=? b) && (b <=? upper d) then
    let cp := Z.lor (Z.shiftl (code_point d) 6) (Z.land b 0x3F) in
    if (S (bytes_seen d) =? bytes_needed d)%nat then ([cp], initial)
    else ([], {| code_point := cp; bytes_seen := S (bytes_seen d);
                 bytes_needed := bytes_needed d;
                 lower := 0x80; upper := 0xBF |})
  else (0xFFFD :: fst (start b), snd (start b)).

Fixpoint run (d : decoder) (bytes : Buffer) : list Z * decoder :=
  match bytes with
  | [] => ([], d)
  | b :: rest =>
      let r1 := step d b in
      let r2 := run (snd r1) rest in
      (fst r1 ++ fst r2, snd r2)
  end.

(** At the end of the input an open sequence is replaced by U+FFFD. *)
Definition flush (d : decoder) : list Z :=
  if (bytes_needed d =? 0)%nat then [] else [0xFFFD].

(** The code points of a buffer. *)
Definition decode (bytes : Buffer) : list Z :=
  let r := run initial bytes in fst r ++ flush (snd r).

End Utf8.

(** [buf.toString()]: the buffer decoded as UTF-8, on its own. *)
Definition toString (data : Buffer) : jsstring := utf16 (Utf8.decode data).

(** The buffer ends on a character boundary: no sequence is left open. *)
Definition complete (data : Buffer) : bool :=
  (Utf8.bytes_needed (snd (Utf8.run Utf8.initial data)) =? 0)%nat.

(* ===================================================================== *)
(** ** synthesize                                                        *)
(* ===================================================================== *)

(** What the module reads from its surroundings: [os.tmpdir()], the value
    [crypto.randomUUID()] returns to this call, the path of the module
    file ([fileURLToPath(import.meta.url)]) and the functions [dirname]
    and [join] of [path]. *)
Record Env : Type := MkEnv {
  tmpdir : jsstring;
  randomUUID : jsstring;
  module_path : jsstring;
  dirname : jsstring -> jsstring;
  path_join : jsstring -> jsstring -> jsstring
}.

(** [const __dirname = dirname(fileURLToPath(import.meta.url))] *)
Definition __dirname (env : Env) : jsstring := dirname env (module_path env).

(** [const PYTHON_SCRIPT = join(__dirname, 'tts.py')] *)
Definition PYTHON_SCRIPT (env : Env) : jsstring :=
  path_join env (__dirname env) (lit "tts.py").

(** The five destructured bindings. *)
Record Options : Type := MkOptions {
  output : jsstring;
  gender : jsstring;
  rate : jsstring;
  pitch : jsstring;
  volume : jsstring
}.

(** The file name of the default output, [`tts-${randomUUID()}.mp3`]. *)
Definition default_basename (uuid : jsstring) : jsstring :=
  lit "tts-" ++ uuid ++ lit ".mp3".

Definition default_output (env : Env) : jsstring :=
  path_join env (tmpdir env) (default_basename (randomUUID env)).

(** The destructuring [const { output = ..., gender = 'female', ... } =
    options]: a key that is absent reads as [undefined] and takes its
    default; the JSDoc types every key that is present as a string. *)
Definition destructure (env : Env) (options : gmap string jsstring)
    : Options :=
  {| output := default (default_output env) (options !! "output"%string);
     gender := default (lit "female") (options !! "gender"%string);
     rate := default (lit "+0%") (options !! "rate"%string);
     pitch := default (lit "+0Hz") (options !! "pitch"%string);
     volume := default (lit "+0%") (options !! "volume"%string) |}.

(** The argument array handed to [spawn('python3', args)]. *)
Definition spawn_args (env : Env) (text : jsstring) (o : Options)
    : list jsstring :=
  [PYTHON_SCRIPT env; text;
   lit "-o"; output o;
   lit "-g"; gender o;
   lit "-r"; rate o;
   lit "-p"; pitch o;
   lit "-v"; volume o].

(** What happens from the call [spawn('python3', args)] on, in order of
    occurrence. *)
Inductive world_event : Type :=
  | SpawnThrew (err : JsError)
      (** the call to [spawn] itself throws [err] (as it does for an
          argument that contains U+0000): the executor is left, no
          process exists and no handler is installed *)
  | StderrData (data : Buffer)
      (** ['data'] on [proc.stderr], with the bytes of the chunk *)
  | FileCreated (path : jsstring)
  | FileRemoved (path : jsstring)
  | Close (code : option Z)
      (** ['close'] on [proc]; [None] is the [null] code of a process
          ended by a signal *)
  | ProcError (err : JsError).
      (** ['error'] on [proc]: the process could not be launched *)

(** The world a call runs in: the files present at the spawn and the
    events that follow. *)
Record World : Type := MkWorld {
  files0 : gset jsstring;
  trace : list world_event
}.

(** The variables the handlers close over, with the file system. *)
Record synth_state : Type := MkState {
  stderr : jsstring;
  promise : Promise.state;
  files : gset jsstring
}.

(** [`${code}`] *)
Definition template_code (code : option Z) : jsstring :=
  match code with
  | Some n => lit (pretty n)
  | None => lit "null"
  end.

(** [code === 0] *)
Definition code_is_zero (code : option Z) : bool :=
  match code with
  | Some n => n =? 0
  | None => false
  end.

(** [fs.existsSync] *)
Definition existsSync (fs : gset jsstring) (path : jsstring) : bool :=
  bool_decide (path ∈ fs).

(** [`TTS failed (code ${code}): ${stderr}`] *)
Definition failure_message (code : option Z) (stderr_text : jsstring)
    : jsstring :=
  lit "TTS failed (code " ++ template_code code ++ lit "): " ++ stderr_text.

(** [stderr += data.toString()]: each chunk is decoded on its own. *)
Definition on_stderr_data (st : synth_state) (data : Buffer)
    : synth_state :=
  {| stderr := stderr st ++ toString data;
     promise := promise st;
     files := files st |}.

Definition on_close (out : jsstring) (st : synth_state) (code : option Z)
    : synth_state :=
  {| stderr := stderr st;
     promise :=
       if code_is_zero code && existsSync (files st) out
       then Promise.resolve (promise st) out
       else Promise.reject (promise st)
              (MkError (failure_message code (stderr st)));
     files := files st |}.

Definition on_error (st : synth_state) (err : JsError) : synth_state :=
  {| stderr := stderr st;
     promise := Promise.reject (promise st) err;
     files := files st |}.

(** An exception thrown inside the executor rejects the promise. *)
Definition on_throw (st : synth_state) (err : JsError) : synth_state :=
  {| stderr := stderr st;
     promise := Promise.reject (promise st) err;
     files := files st |}.

Definition step (out : jsstring) (st : synth_state) (ev : world_event)
    : synth_state :=
  match ev with
  | SpawnThrew err => on_throw st err
  | StderrData data => on_stderr_data st data
  | FileCreated p =>
      {| stderr := stderr st; promise := promise st;
         files := {[p]} ∪ files st |}
  | FileRemoved p =>
      {| stderr := stderr st; promise := promise st;
         files := files st ∖ {[p]} |}
  | Close code => on_close out st code
  | ProcError err => on_error st err
  end.

Definition run (out : jsstring) (st : synth_state)
    (evs : list world_event) : synth_state :=
  fold_left (step out) evs st.

(** The result of a call: the one call it makes to [spawn], with its
    command and arguments, and the promise it returns, as settled by the
    events of the world. Whether a process came to exist is told by the
    trace, not by these fields. *)
Record synth_result : Type := MkResult {
  command : jsstring;
  arguments : list jsstring;
  settled : Promise.state
}.

(** At the spawn: [let stderr = ''], a pending promise, the files of the
    world. *)
Definition st0 (fs0 : gset jsstring) : synth_state :=
  {| stderr := []; promise := Promise.Pending; files := fs0 |}.

(** [synthesize(text, options = {})]; [None] is an omitted argument. *)
Definition synthesize (env : Env) (text : jsstring)
    (options : option (gmap string jsstring)) (w : World) : synth_result :=
  let o := destructure env (default ∅ options) in
  {| command := lit "python3";
     arguments := spawn_args env text o;
     settled := promise (run (output o) (st0 (files0 w)) (trace w)) |}.

(* ===================================================================== *)
(** ** CLI mode                                                          *)
(* ===================================================================== *)

(** What one run of the module leaves behind: the lines written with
    [console.log] and [console.error], the exit status of the process and
    the calls made to [synthesize], each with the call to [spawn] it
    makes. *)
Record cli_result : Type := MkCli {
  stdout : list jsstring;
  stderr_out : list jsstring;
  exit_status : Z;
  calls : list (jsstring * option (gmap string jsstring));
  spawned : list (jsstring * list jsstring)
}.

(** The text of the [--test] smoke test: seven ideographs with full-width
    punctuation, then ['Hello world!']. *)
Definition sample_text : jsstring :=
  [0x54C8; 0x56C9; 0xFF01; 0x9019; 0x662F; 0x6E2C; 0x8A66; 0x8A9E;
   0x97F3; 0x3002] ++ lit "Hello world!".

Definition usage : list jsstring :=
  [lit "Usage: smart-tts " ++ [34] ++ lit "text to speak" ++ [34]
     ++ lit " [-m|--male]";
   lit "       smart-tts --test"].

(** [console.log(a, b)]: the two values separated by one space. *)
Definition log2 (a b : jsstring) : jsstring := a ++ lit " " ++ b.

(** The branch [args.includes('--test')]. *)
Definition cli_test (env : Env) (w : World) : cli_result :=
  let r := synthesize env sample_text None w in
  {| stdout :=
       lit "Testing Smart TTS..." ::
       match settled r with
       | Promise.Fulfilled path => [log2 (lit "Generated:") path]
       | _ => []
       end;
     stderr_out :=
       match settled r with
       | Promise.Rejected err => [log2 (lit "Error:") (message err)]
       | _ => []
       end;
     exit_status := 0;
     calls := [(sample_text, None)];
     spawned := [(command r, arguments r)] |}.

(** [args.filter(a => !a.startsWith('-')).join(' ')] *)
Definition cli_text_of (args : list jsstring) : jsstring :=
  join (lit " ") (List.filter (fun a => negb (startsWith a 45)) args).

(** [args.includes('-m') || args.includes('--male') ? 'male' : 'female'] *)
Definition cli_gender_of (args : list jsstring) : jsstring :=
  if includes args (lit "-m") || includes args (lit "--male")
  then lit "male" else lit "female".

(** The branch [args.length > 0]. *)
Definition cli_text (env : Env) (args : list jsstring) (w : World)
    : cli_result :=
  let text := cli_text_of args in
  let options : gmap string jsstring :=
    {[ "gender"%string := cli_gender_of args ]} in
  let r := synthesize env text (Some options) w in
  {| stdout :=
       match settled r with
       | Promise.Fulfilled path => [path]
       | _ => []
       end;
     stderr_out :=
       match settled r with
       | Promise.Rejected err => [message err]
       | _ => []
       end;
     exit_status :=
       match settled r with
       | Promise.Rejected _ => 1
       | _ => 0
       end;
     calls := [(text, Some options)];
     spawned := [(command r, arguments r)] |}.

(** The last branch: the usage help. *)
Definition cli_usage : cli_result :=
  {| stdout := usage; stderr_out := []; exit_status := 0;
     calls := []; spawned := [] |}.

(** The body of [if (process.argv[1] === fileURLToPath(import.meta.url))],
    with [args = process.argv.slice(2)]. *)
Definition cli_mode (env : Env) (args : list jsstring) (w : World)
    : cli_result :=
  if includes args (lit "--test") then cli_test env w
  else if (0 <? Z.of_nat (length args)) then cli_text env args w
  else cli_usage.

(** The module's top level, run with [process.argv = argv]: CLI mode is
    entered only when the module is the script being run. *)
Definition main (env : Env) (argv : list jsstring) (w : World)
    : cli_result :=
  if bool_decide (argv !! 1%nat = Some (module_path env))
  then cli_mode env (drop 2 argv) w
  else {| stdout := []; stderr_out := []; exit_status := 0;
          calls := []; spawned := [] |}.

(* ===================================================================== *)
(** ** Reading a trace                                                   *)
(* ===================================================================== *)

(** An event that leaves the process running: neither an exception of
    the spawn, nor ['close'], nor ['error']. *)
Definition is_running_event (ev : world_event) : bool :=
  match ev with
  | SpawnThrew _ | Close _ | ProcError _ => false
  | _ => true
  end.

(** The process is still running at the end of [evs]. *)
Definition running (evs : list world_event) : bool :=
  forallb is_running_event evs.



(** What the handler has collected after [evs]: the chunks, each decoded
    on its own, one after the other. *)
Definition stderr_text (evs : list world_event) : jsstring :=
  flat_map (fun ev =>
              match ev with StderrData data => toString data | _ => [] end)
           evs.



(** Node checks the arguments of [spawn] before it starts anything: an
    argument that contains U+0000 makes the call throw. A world obeys
    the check when its trace then begins with the exception. *)
Definition has_null (s : jsstring) : bool := existsb (Z.eqb 0) s.

Definition obeys_spawn_check (env : Env) (text : jsstring)
    (options : option (gmap string jsstring)) (w : World) : Prop :=
  existsb has_null
    (lit "python3" :: spawn_args env text (destructure env (default ∅ options)))
    = true ->
  exists err rest, trace w = SpawnThrew err :: rest.

Definition fs_apply (fs : gset jsstring) (ev : world_event)
    : gset jsstring :=
  match ev with
  | FileCreated p => {[p]} ∪ fs
  | FileRemoved p => fs ∖ {[p]}
  | _ => fs
  end.

(** The files on disk after [evs], starting from [fs]. *)
Definition fs_after (fs : gset jsstring) (evs : list world_event)
    : gset jsstring :=
  fold_left fs_apply evs fs.

(* ===================================================================== *)
(** ** A POSIX environment for the examples                              *)
(* ===================================================================== *)

(** [path.join] and [path.dirname] on paths in normal form. *)
Definition posix_join (a b : jsstring) : jsstring := a ++ lit "/" ++ b.

Fixpoint drop_to_slash (p : jsstring) : jsstring :=
  match p with
  | [] => []
  | c :: rest => if c =? 47 then rest else drop_to_slash rest
  end.

Definition posix_dirname (p : jsstring) : jsstring :=
  rev (drop_to_slash (rev p)).

Definition posix_env : Env :=
  {| tmpdir := lit "/tmp";
     randomUUID := lit "1b4e28ba-2fa1-41d2-883f-0016d3cca427";
     module_path := lit "/opt/smart-tts/index.js";
     dirname := posix_dirname;
     path_join := posix_join |}.

(** A backend stub that writes [chunks] to stderr, creates the files
    [written] and exits with [code]. *)
Definition stub (chunks : list Buffer) (written : list jsstring)
    (code : Z) : World :=
  {| files0 := ∅;
     trace := map StderrData chunks ++ map FileCreated written
              ++ [Close (Some code)] |}.

(* ===================================================================== *)
(** ** The order of the tests                                            *)
(* ===================================================================== *)

(** The rank of a tag in the if-chain of [detectLanguage]: the earlier the
    test, the higher the rank. *)
Definition priority (t : LanguageTag) : nat :=
  match t with
  | ja => 4
  | yue => 3
  | zh => 2
  | en => 1
  | neutral => 0
  end%nat.

(** The tag of the earlier test. *)
Definition stronger (t1 t2 : LanguageTag) : LanguageTag :=
  if (priority t2 <=? priority t1)%nat then t1 else t2.

(* ===================================================================== *)
(** ** Properties of detectLanguage                                      *)
(* ===================================================================== *)

Section DetectLanguage.

Lemma test_existsb (cls : Regex.char_class) (text : jsstring) :
  Regex.test cls text = existsb (Regex.class_matches cls) text.
Proof. induction text as [|c rest IH]; simpl; [reflexivity | now rewrite IH]. Qed.

Lemma existsb_ext_bool {A} (p q : A -> bool) (l : list A) :
  (forall x, p x = q x) -> existsb p l = existsb q l.
Proof. intros E. induction l as [|x l IH]; simpl; [reflexivity | now rewrite E, IH]. Qed.

Lemma kana_class (c : Z) : Regex.class_matches re_kana c = Spec.is_kana c.
Proof.
  unfold Regex.class_matches, re_kana, Spec.is_kana, Spec.is_hiragana,
    Spec.is_katakana, Spec.in_block; simpl.
  now rewrite orb_false_r.
Qed.

Lemma chars_class (l : list Z) (c : Z) :
  Regex.class_matches (map Regex.CChar l) c = bool_decide (c ∈ l).
Proof.
  unfold Regex.class_matches. induction l as [|x l IH].
  - symmetry. apply bool_decide_eq_false_2, not_elem_of_nil.
  - cbn [map existsb Regex.item_matches]. rewrite IH.
    destruct (Z.eqb_spec c x) as [->|Hne]; cbn [orb].
    + symmetry. apply bool_decide_eq_true_2, elem_of_cons. now left.
    + apply bool_decide_ext. rewrite elem_of_cons. tauto.
Qed.

Lemma cantonese_class (c : Z) :
  Regex.class_matches re_cantonese c = Spec.is_cantonese_marker c.
Proof. exact (chars_class Spec.cantonese_markers c). Qed.

Lemma hanzi_class (c : Z) : Regex.class_matches re_hanzi c = Spec.is_han c.
Proof.
  unfold Regex.class_matches, re_hanzi, Spec.is_han, Spec.in_block; simpl.
  now rewrite orb_false_r.
Qed.

Lemma latin_class (c : Z) :
  Regex.class_matches re_latin c = Spec.is_ascii_letter c.
Proof.
  unfold Regex.class_matches, re_latin, Spec.is_ascii_letter, Spec.in_block;
    simpl.
  rewrite orb_false_r. apply orb_comm.
Qed.

Lemma test_contains (cls : Regex.char_class) (p : Z -> bool) (text : jsstring) :
  (forall c, Regex.class_matches cls c = p c) ->
  Regex.test cls text = Spec.contains p text.
Proof. intros E. rewrite test_existsb. now apply existsb_ext_bool. Qed.

Lemma is_kana_range (c : Z) :
  Spec.is_kana c = true <-> 0x3040 <= c <= 0x30FF.
Proof.
  unfold Spec.is_kana, Spec.is_hiragana, Spec.is_katakana, Spec.in_block.
  rewrite orb_true_iff, !andb_true_iff, !Z.leb_le. lia.
Qed.

Lemma is_han_range (c : Z) :
  Spec.is_han c = true <-> 0x4E00 <= c <= 0x9FFF.
Proof.
  unfold Spec.is_han, Spec.in_block. rewrite andb_true_iff, !Z.leb_le. lia.
Qed.

Lemma is_ascii_letter_range (c : Z) :
  Spec.is_ascii_letter c = true <-> 65 <= c <= 90 \/ 97 <= c <= 122.
Proof.
  unfold Spec.is_ascii_letter, Spec.in_block.
  rewrite orb_true_iff, !andb_true_iff, !Z.leb_le. lia.
Qed.

(** Every Cantonese marker is itself a CJK Unified Ideograph. *)
Lemma cantonese_marker_is_han (c : Z) :
  Spec.is_cantonese_marker c = true -> Spec.is_han c = true.
Proof.
  unfold Spec.is_cantonese_marker. intros H.
  apply bool_decide_eq_true in H. unfold Spec.cantonese_markers in H.
  repeat (apply elem_of_cons in H; destruct H as [->|H]; [reflexivity|]).
  now apply elem_of_nil in H.
Qed.

Lemma contains_true (p : Z -> bool) (text : list Z) :
  Spec.contains p text = true <-> exists c, In c text /\ p c = true.
Proof. unfold Spec.contains. apply existsb_exists. Qed.

Lemma contains_false (p : Z -> bool) (text : list Z) :
  Spec.contains p text = false <-> forall c, In c text -> p c = false.
Proof.
  unfold Spec.contains. induction text as [|x l IH]; simpl.
  - split; [intros _ c [] | reflexivity].
  - rewrite orb_false_iff, IH. split.
    + intros [Hx Hl] c [<-|Hc]; auto.
    + intros H. split; [apply H; now left | intros c Hc; apply H; now right].
Qed.

(** The if-chain of the source, over the predicates of the specification. *)
Lemma detectLanguage_unfold (text : jsstring) :
  detectLanguage text =
    if Spec.contains Spec.is_kana text then ja
    else if Spec.contains Spec.is_cantonese_marker text then yue
    else if Spec.contains Spec.is_han text then zh
    else if Spec.contains Spec.is_ascii_letter text then en
    else neutral.
Proof.
  unfold detectLanguage.
  rewrite (test_contains _ _ text kana_class),
    (test_contains _ _ text cantonese_class),
    (test_contains _ _ text hanzi_class),
    (test_contains _ _ text latin_class).
  reflexivity.
Qed.

(** The units of a code point above the BMP are surrogates. *)
Lemma utf16_units_cases (cp : Z) :
  utf16_units cp = [cp] \/
  (0x10000 <= cp /\ forall u, In u (utf16_units cp) -> 0xD800 <= u).
Proof.
  unfold utf16_units. destruct (Z.ltb_spec cp 0x10000) as [Hlt|Hge].
  - now left.
  - right. split; [assumption|].
    assert (0 <= Z.shiftr (cp - 0x10000) 10) by (apply Z.shiftr_nonneg; lia).
    assert (0 <= Z.land (cp - 0x10000) 0x3FF) by (apply Z.land_nonneg; lia).
    intros u [<-|[<-|[]]]; lia.
Qed.

(** A predicate that holds below the surrogates only sees the same
    characters in the code units as in the code points. *)
Lemma contains_utf16 (p : Z -> bool) (cps : list Z) :
  (forall c, p c = true -> c < 0xD800) ->
  Spec.contains p (utf16 cps) = Spec.contains p cps.
Proof.
  intros Hp. unfold Spec.contains, utf16.
  induction cps as [|cp cps IH]; [reflexivity|].
  cbn [flat_map existsb]. rewrite existsb_app, IH. f_equal.
  destruct (utf16_units_cases cp) as [->|[Hge Hu]].
  - simpl. apply orb_false_r.
  - transitivity false.
    + apply (contains_false p). intros u Hin.
      destruct (p u) eqn:E; [|reflexivity].
      apply Hp in E. specialize (Hu u Hin). lia.
    + destruct (p cp) eqn:E; [|reflexivity]. apply Hp in E. lia.
Qed.

Lemma detectLanguage_code_points (cps : list Z) :
  detectLanguage (utf16 cps) = Spec.classify cps.
Proof.
  rewrite detectLanguage_unfold.
  rewrite !contains_utf16; [reflexivity | | | |].
  - intros c H. apply is_ascii_letter_range in H. lia.
  - intros c H. apply is_han_range in H. lia.
  - intros c H. apply cantonese_marker_is_han, is_han_range in H. lia.
  - intros c H. apply is_kana_range in H. lia.
Qed.

End DetectLanguage.

(** C2. For every string, [detectLanguage] is the ordered first-match-wins
    classifier: kana gives [ja]; else a Cantonese marker gives [yue]; else
    a CJK Unified Ideograph gives [zh]; else an ASCII letter gives [en];
    else [neutral]. It holds of the string as a sequence of code units and
    as a sequence of code points, and the empty string gives [neutral]. *)
Theorem detectLanguage_first_match :
  (forall text : jsstring, detectLanguage text = Spec.classify text) /\
  (forall cps : list Z, detectLanguage (utf16 cps) = Spec.classify cps) /\
  detectLanguage [] = neutral.
Proof.
  split; [|split; [exact detectLanguage_code_points | reflexivity]].
  intros text. rewrite detectLanguage_unfold.
  unfold Spec.classify, Spec.priority_rules, Spec.first_match.
  reflexivity.
Qed.

(** C3. A text with at least one unit of the Hiragana block
    (U+3040..U+309F) or of the Katakana block (U+30A0..U+30FF) is
    classified [ja], whatever else it contains. *)
Theorem detectLanguage_kana_wins (text : jsstring) :
  (exists c, In c text /\ (0x3040 <= c <= 0x309F \/ 0x30A0 <= c <= 0x30FF)) ->
  detectLanguage text = ja.
Proof.
  intros (c & Hin & Hc). rewrite detectLanguage_unfold.
  assert (Spec.contains Spec.is_kana text = true) as ->; [|reflexivity].
  apply contains_true. exists c. split; [assumption|].
  apply is_kana_range. lia.
Qed.

(** One hiragana unit between English words and an ideograph. *)
Lemma detectLanguage_kana_wins_witness :
  (exists c, In c (lit "Hello " ++ [0x3053; 0x4E16] ++ lit " world") /\
             (0x3040 <= c <= 0x309F \/ 0x30A0 <= c <= 0x30FF)) /\
  detectLanguage (lit "Hello " ++ [0x3053; 0x4E16] ++ lit " world") = ja.
Proof.
  assert (H : exists c, In c (lit "Hello " ++ [0x3053; 0x4E16] ++ lit " world") /\
             (0x3040 <= c <= 0x309F \/ 0x30A0 <= c <= 0x30FF)).
  { exists 0x3053. split; [simpl; tauto | lia]. }
  split; [exact H | exact (detectLanguage_kana_wins _ H)].
Defined.

Section DetectLanguageJs.





End DetectLanguageJs.


(** The model can throw: a symbol cannot be converted to a string, and
    the first [test] throws. *)
Lemma detectLanguage_js_symbol (description : jsstring) :
  detectLanguage_js (VSymbol description)
  = Throw (MkError (lit "Cannot convert a Symbol value to a string")).
Proof. reflexivity. Qed.

(** [undefined] is tested as the string ["undefined"]. *)
Lemma detectLanguage_js_undefined :
  detectLanguage_js VUndefined = Return (VString (lit "en")).
Proof. reflexivity. Qed.

(** The model can keep state: with the [g] flag the same test on the same
    string answers [true], then [false], and moves [lastIndex]. *)
Lemma global_test_is_stateful :
  let r := {| pattern := re_latin; global := true; sticky := false;
              lastIndex := 0 |} in
  RegExp_test r (VString (lit "a")) = Return (true, set_lastIndex r 1) /\
  RegExp_test (set_lastIndex r 1) (VString (lit "a")) = Return (false, r).
Proof. split; reflexivity. Qed.

(** The five strings are pairwise distinct, so a tag is known by its
    string. *)
Lemma tag_string_inj (t1 t2 : LanguageTag) :
  tag_string t1 = tag_string t2 -> t1 = t2.
Proof. destruct t1, t2; intros H; try reflexivity; discriminate H. Qed.

(** Each of the five tags is the result for some string. *)
Lemma detectLanguage_onto (t : LanguageTag) :
  exists text, detectLanguage text = t.
Proof.
  destruct t.
  - exists [0x4F60; 0x597D; 0x4E16; 0x754C]. reflexivity.
  - exists (lit "Hello world"). reflexivity.
  - exists [0x3053; 0x3093; 0x306B; 0x3061; 0x306F; 0x3001; 0x4E16; 0x754C].
    reflexivity.
  - exists [0x4FC2; 0x5481; 0x5148; 0x5566]. reflexivity.
  - exists (lit "12345"). reflexivity.
Qed.

(** Units outside every tested range give [neutral]. *)
Lemma neutral_outside_ranges (text : jsstring) :
  (forall c, In c text ->
      ~ 0x3040 <= c <= 0x30FF /\ ~ 0x4E00 <= c <= 0x9FFF /\
      ~ 65 <= c <= 90 /\ ~ 97 <= c <= 122) ->
  detectLanguage text = neutral.
Proof.
  intros Hout. rewrite detectLanguage_unfold.
  assert (Spec.contains Spec.is_kana text = false) as ->.
  { apply contains_false. intros c Hin. destruct (Spec.is_kana c) eqn:E;
      [|reflexivity]. apply is_kana_range in E.
    destruct (Hout c Hin) as (H & _). contradiction. }
  assert (Spec.contains Spec.is_cantonese_marker text = false) as ->.
  { apply contains_false. intros c Hin.
    destruct (Spec.is_cantonese_marker c) eqn:E; [|reflexivity].
    apply cantonese_marker_is_han, is_han_range in E.
    destruct (Hout c Hin) as (_ & H & _). contradiction. }
  assert (Spec.contains Spec.is_han text = false) as ->.
  { apply contains_false. intros c Hin. destruct (Spec.is_han c) eqn:E;
      [|reflexivity]. apply is_han_range in E.
    destruct (Hout c Hin) as (_ & H & _). contradiction. }
  assert (Spec.contains Spec.is_ascii_letter text = false) as ->.
  { apply contains_false. intros c Hin.
    destruct (Spec.is_ascii_letter c) eqn:E; [|reflexivity].
    apply is_ascii_letter_range in E.
    destruct (Hout c Hin) as (_ & _ & H1 & H2). lia. }
  reflexivity.
Qed.

(** C8. Kana is recognised only in U+3040..U+30FF and ideographs only in
    U+4E00..U+9FFF: a [ja] result needs a unit of the first range, a [zh]
    or [yue] result a unit of the second, and a text whose units all lie
    outside the two ranges and outside A-Z and a-z is [neutral]. *)
Theorem detectLanguage_tested_ranges (text : jsstring) :
  (detectLanguage text = ja ->
   exists c, In c text /\ 0x3040 <= c <= 0x30FF) /\
  (detectLanguage text = zh \/ detectLanguage text = yue ->
   exists c, In c text /\ 0x4E00 <= c <= 0x9FFF) /\
  ((forall c, In c text ->
      ~ 0x3040 <= c <= 0x30FF /\ ~ 0x4E00 <= c <= 0x9FFF /\
      ~ 65 <= c <= 90 /\ ~ 97 <= c <= 122) ->
   detectLanguage text = neutral).
Proof.
  rewrite detectLanguage_unfold.
  destruct (Spec.contains Spec.is_kana text) eqn:Ek;
    [|destruct (Spec.contains Spec.is_cantonese_marker text) eqn:Ec;
      [|destruct (Spec.contains Spec.is_han text) eqn:Eh;
        [|destruct (Spec.contains Spec.is_ascii_letter text) eqn:El]]].
  - apply contains_true in Ek. destruct Ek as (c & Hin & Hc).
    apply is_kana_range in Hc.
    split; [eauto | split; [intros [H|H]; discriminate H|]].
    intros Hout. destruct (Hout c Hin) as (Hk & _). contradiction.
  - apply contains_true in Ec. destruct Ec as (c & Hin & Hc).
    apply cantonese_marker_is_han, is_han_range in Hc.
    split; [discriminate | split; [eauto|]].
    intros Hout. destruct (Hout c Hin) as (_ & Hh & _). contradiction.
  - apply contains_true in Eh. destruct Eh as (c & Hin & Hc).
    apply is_han_range in Hc.
    split; [discriminate | split; [eauto|]].
    intros Hout. destruct (Hout c Hin) as (_ & Hh & _). contradiction.
  - apply contains_true in El. destruct El as (c & Hin & Hc).
    apply is_ascii_letter_range in Hc.
    split; [discriminate | split; [intros [H|H]; discriminate H|]].
    intros Hout. destruct (Hout c Hin) as (_ & _ & Hu & Hl). lia.
  - split; [discriminate | split; [intros [H|H]; discriminate H|]].
    reflexivity.
Qed.

(** CJK Extension A ideographs (U+3400, U+4DBF) and halfwidth katakana
    (U+FF76, U+FF85) only: [neutral]. *)
Lemma detectLanguage_tested_ranges_witness :
  detectLanguage [0x3400; 0x4DBF; 0xFF76; 0xFF85] = neutral.
Proof.
  apply (proj2 (proj2 (detectLanguage_tested_ranges
                         [0x3400; 0x4DBF; 0xFF76; 0xFF85]))).
  intros c [<-|[<-|[<-|[<-|[]]]]]; lia.
Defined.

(** A text of CJK Extension A ideographs only is [neutral]. *)
Lemma detectLanguage_extension_A (text : jsstring) :
  Forall (fun c => 0x3400 <= c <= 0x4DBF) text ->
  detectLanguage text = neutral.
Proof.
  intros H. apply neutral_outside_ranges.
  intros c Hin. rewrite Forall_forall in H. specialize (H c).
  rewrite <- list_elem_of_In in Hin. specialize (H Hin). lia.
Qed.

(** A text of halfwidth katakana only is [neutral]. *)
Lemma detectLanguage_halfwidth_katakana (text : jsstring) :
  Forall (fun c => 0xFF65 <= c <= 0xFF9F) text ->
  detectLanguage text = neutral.
Proof.
  intros H. apply neutral_outside_ranges.
  intros c Hin. rewrite Forall_forall in H. specialize (H c).
  rewrite <- list_elem_of_In in Hin. specialize (H Hin). lia.
Qed.

(* ===================================================================== *)
(** ** Decoding buffers, rendering exit codes                            *)
(* ===================================================================== *)

Section Decoding.









Lemma utf8_run_ascii (data : Buffer) :
  Forall (fun b => 0 <= b <= 0x7F) data ->
  Utf8.run Utf8.initial data = (data, Utf8.initial).
Proof.
  induction 1 as [|b data Hb _ IH]; [reflexivity|].
  assert (Utf8.step Utf8.initial b = ([b], Utf8.initial)) as Hs.
  { unfold Utf8.step. cbn [Utf8.initial Utf8.bytes_needed Nat.eqb].
    unfold Utf8.start.
    assert ((0 <=? b) && (b <=? 0x7F) = true) as ->
      by (apply andb_true_iff; split; apply Z.leb_le; lia).
    reflexivity. }
  cbn [Utf8.run]. rewrite Hs. cbn [fst snd]. now rewrite IH.
Qed.

Lemma utf16_bmp (cps : list Z) :
  Forall (fun c => c < 0x10000) cps -> utf16 cps = cps.
Proof.
  induction 1 as [|c cps Hc _ IH]; [reflexivity|].
  unfold utf16 in *. cbn [flat_map]. rewrite IH. unfold utf16_units.
  now apply Z.ltb_lt in Hc as ->.
Qed.

(** An ASCII buffer is its own text and ends on a boundary. *)
Lemma toString_ascii (data : Buffer) :
  Forall (fun b => 0 <= b <= 0x7F) data ->
  toString data = data /\ complete data = true.
Proof.
  intros H. unfold toString, Utf8.decode, complete.
  rewrite (utf8_run_ascii data H). cbn [fst snd]. split; [|reflexivity].
  change (Utf8.flush Utf8.initial) with (@nil Z). rewrite app_nil_r.
  apply utf16_bmp. rewrite Forall_forall in *. intros c Hc.
  specialize (H c Hc). lia.
Qed.



End Decoding.

Section FailureMessage.

Lemma lit_cons (a : ascii) (s : string) :
  lit (String a s) = Z.of_N (N_of_ascii a) :: lit s.
Proof. reflexivity. Qed.

Lemma lit_inj (s1 s2 : string) : lit s1 = lit s2 -> s1 = s2.
Proof.
  revert s2. induction s1 as [|a s1 IH]; intros [|b s2] H;
    try reflexivity; try discriminate H.
  rewrite !lit_cons in H. injection H as Hab Hs.
  apply N2Z.inj in Hab.
  assert (a = b) as ->.
  { rewrite <- (ascii_N_embedding a), <- (ascii_N_embedding b).
    now rewrite Hab. }
  now rewrite (IH s2 Hs).
Qed.

(** The decimal digits of a natural number, pushed in front of [s]. *)
Lemma pretty_N_go_units (x : N) :
  forall s,
    Forall (fun c => c = 45 \/ 48 <= c <= 57) (lit s) ->
    Forall (fun c => c = 45 \/ 48 <= c <= 57) (lit (pretty_N_go x s)).
Proof.
  induction (N.lt_wf_0 x) as [x _ IH]. intros s Hs.
  destruct (N.eq_dec x 0%N) as [->|Hx].
  - now rewrite pretty_N_go_0.
  - rewrite pretty_N_go_step by lia. apply IH.
    + apply N.div_lt; lia.
    + rewrite lit_cons. constructor; [|exact Hs].
      right. unfold pretty_N_char.
      repeat case_match; cbn; lia.
Qed.

(** [`${code}`] for a number is made of digits and at most a sign. *)
Lemma pretty_Z_units (n : Z) :
  Forall (fun c => c = 45 \/ 48 <= c <= 57) (lit (pretty n)).
Proof.
  assert (forall p : positive,
            Forall (fun c => c = 45 \/ 48 <= c <= 57) (lit (pretty p)))
    as Hpos.
  { intros p. unfold pretty, pretty_positive, pretty, pretty_N.
    destruct (decide (N.pos p = 0%N)) as [E|_]; [discriminate E|].
    apply pretty_N_go_units. constructor. }
  destruct n as [|p|p].
  - repeat constructor; cbn; lia.
  - exact (Hpos p).
  - change (pretty (Z.neg p)) with (String "-"%char (pretty p)).
    rewrite lit_cons. constructor; [now left | exact (Hpos p)].
Qed.

Lemma template_code_no_paren (code : option Z) :
  ~ In 41 (template_code code).
Proof.
  destruct code as [n|]; cbn [template_code].
  - intros Hin. pose proof (pretty_Z_units n) as H.
    rewrite Forall_forall in H. apply list_elem_of_In in Hin.
    specialize (H 41 Hin). lia.
  - cbn. intros H. repeat (destruct H as [H|H]; [discriminate H|]).
    exact H.
Qed.

Lemma template_code_inj (c1 c2 : option Z) :
  template_code c1 = template_code c2 -> c1 = c2.
Proof.
  destruct c1 as [n|], c2 as [m|]; cbn [template_code]; intros H.
  - apply lit_inj in H. now apply (inj pretty) in H as ->.
  - pose proof (pretty_Z_units n) as Hn. rewrite H in Hn.
    inversion Hn as [|c l Hc _]; subst. lia.
  - pose proof (pretty_Z_units m) as Hm. rewrite <- H in Hm.
    inversion Hm as [|c l Hc _]; subst. lia.
  - reflexivity.
Qed.

(** Two texts cut at their first [')'] agree on both sides of the cut. *)
Lemma cut_at_paren (t1 t2 s1 s2 : jsstring) :
  ~ In 41 t1 -> ~ In 41 t2 ->
  t1 ++ 41 :: s1 = t2 ++ 41 :: s2 -> t1 = t2 /\ s1 = s2.
Proof.
  revert t2. induction t1 as [|x t1 IH]; intros [|y t2] H1 H2 E;
    cbn in E.
  - injection E as ->. auto.
  - injection E as <- _. exfalso. apply H2. now left.
  - injection E as -> _. exfalso. apply H1. now left.
  - injection E as -> E.
    destruct (IH t2) as [-> ->]; auto.
    + intros Hin. apply H1. now right.
    + intros Hin. apply H2. now right.
Qed.

End FailureMessage.

Section ExitCode.







End ExitCode.

(* ===================================================================== *)
(** ** Properties of synthesize                                          *)
(* ===================================================================== *)

Section Synthesize.

Variable out : jsstring.

Lemma run_app (st : synth_state) (a b : list world_event) :
  run out st (a ++ b) = run out (run out st a) b.
Proof. unfold run. apply fold_left_app. Qed.

(** While the process runs, the handlers only collect stderr and the file
    system moves; the promise is not touched. *)
Lemma run_running (pre : list world_event) :
  running pre = true ->
  forall st,
    run out st pre =
      {| stderr := stderr st ++ stderr_text pre;
         promise := promise st;
         files := fs_after (files st) pre |}.
Proof.
  induction pre as [|ev pre IH]; intros Hr st.
  - destruct st; simpl. now rewrite app_nil_r.
  - simpl in Hr. apply andb_true_iff in Hr. destruct Hr as [Hev Hpre].
    change (run out st (ev :: pre)) with (run out (step out st ev) pre).
    rewrite (IH Hpre).
    destruct ev; try discriminate Hev; simpl; try reflexivity.
    now rewrite <- app_assoc.
Qed.

Lemma step_settled (st : synth_state) (ev : world_event) :
  promise st <> Promise.Pending -> promise (step out st ev) = promise st.
Proof.
  intros Hs. destruct ev as [err|data|p|p|code|err]; simpl;
    try reflexivity.
  - destruct (promise st); simpl; congruence.
  - destruct (code_is_zero code && existsSync (files st) out);
      destruct (promise st); simpl; congruence.
  - destruct (promise st); simpl; congruence.
Qed.

(** A settled promise stays as it is: later events are ignored. *)
Lemma run_settled (evs : list world_event) :
  forall st,
    promise st <> Promise.Pending -> promise (run out st evs) = promise st.
Proof.
  induction evs as [|ev evs IH]; intros st Hs; [reflexivity|].
  change (run out st (ev :: evs)) with (run out (step out st ev) evs).
  rewrite IH.
  - now apply step_settled.
  - now rewrite step_settled.
Qed.

(** A trace either leaves the process running or has a first ['close'] or
    ['error']. *)
Lemma first_settling_event (evs : list world_event) :
  running evs = true \/
  exists pre ev post,
    evs = pre ++ ev :: post /\ running pre = true /\
    is_running_event ev = false.
Proof.
  induction evs as [|ev evs IH]; [now left|].
  destruct (is_running_event ev) eqn:E.
  - destruct IH as [Hr|(pre & ev' & post & -> & Hpre & Hev)].
    + left. simpl. now rewrite E, Hr.
    + right. exists (ev :: pre), ev', post. simpl. rewrite E, Hpre. auto.
  - right. exists [], ev, evs. auto.
Qed.

(** The process exits: the promise is settled by the ['close'] handler. *)
Lemma run_close (fs0 : gset jsstring) (pre post : list world_event)
    (code : option Z) :
  running pre = true ->
  promise (run out (st0 fs0) (pre ++ Close code :: post)) =
    if code_is_zero code && existsSync (fs_after fs0 pre) out
    then Promise.Fulfilled out
    else Promise.Rejected (MkError (failure_message code (stderr_text pre))).
Proof.
  intros Hr. rewrite run_app, (run_running pre Hr).
  change (run out ?s (Close code :: post))
    with (run out (step out s (Close code)) post).
  rewrite run_settled; simpl;
    destruct (code_is_zero code && existsSync (fs_after fs0 pre) out);
    simpl; congruence.
Qed.

(** The launch fails: the promise is rejected with the error of the
    ['error'] event. *)
Lemma run_error (fs0 : gset jsstring) (pre post : list world_event)
    (err : JsError) :
  running pre = true ->
  promise (run out (st0 fs0) (pre ++ ProcError err :: post)) =
    Promise.Rejected err.
Proof.
  intros Hr. rewrite run_app, (run_running pre Hr).
  change (run out ?s (ProcError err :: post))
    with (run out (step out s (ProcError err)) post).
  rewrite run_settled; simpl; congruence.
Qed.

(** The call to [spawn] throws: the promise is rejected with the
    exception. *)
Lemma run_throw (fs0 : gset jsstring) (pre post : list world_event)
    (err : JsError) :
  running pre = true ->
  promise (run out (st0 fs0) (pre ++ SpawnThrew err :: post)) =
    Promise.Rejected err.
Proof.
  intros Hr. rewrite run_app, (run_running pre Hr).
  change (run out ?s (SpawnThrew err :: post))
    with (run out (step out s (SpawnThrew err)) post).
  rewrite run_settled; simpl; congruence.
Qed.

(** No exception, no ['close'] and no ['error']: the promise stays
    pending. *)
Lemma run_pending (fs0 : gset jsstring) (evs : list world_event) :
  running evs = true -> promise (run out (st0 fs0) evs) = Promise.Pending.
Proof. intros Hr. now rewrite (run_running evs Hr). Qed.

Lemma zero_and_exists (fs : gset jsstring) (code : option Z) :
  code_is_zero code && existsSync fs out = true <->
  code = Some 0 /\ out ∈ fs.
Proof.
  unfold existsSync. rewrite andb_true_iff, bool_decide_eq_true.
  destruct code as [n|]; simpl.
  - rewrite Z.eqb_eq. split; intros [H1 H2]; split; congruence.
  - split; intros [H1 H2]; discriminate.
Qed.

End Synthesize.



(** C1. The promise of [synthesize] is fulfilled exactly when the first
    settling event of the trace is a ['close'] with code 0 at a moment at
    which the output path is on disk, and it is then fulfilled with that
    path; when the process exits otherwise (another code, or code 0 with
    the file absent) the promise is rejected. *)
Theorem synthesize_resolves_iff (env : Env) (text : jsstring)
    (options : option (gmap string jsstring)) (w : World) :
  let out := output (destructure env (default ∅ options)) in
  let r := synthesize env text options w in
  (forall v,
     settled r = Promise.Fulfilled v <->
     v = out /\
     exists pre post,
       trace w = pre ++ Close (Some 0) :: post /\ running pre = true /\
       out ∈ fs_after (files0 w) pre) /\
  (forall pre code post,
     trace w = pre ++ Close code :: post -> running pre = true ->
     ~ (code = Some 0 /\ out ∈ fs_after (files0 w) pre) ->
     exists e, settled r = Promise.Rejected e).
Proof.
  intros out r. subst r. unfold synthesize. cbn [settled].
  fold out. split.
  - intros v. split.
    + intros Hv.
      destruct (first_settling_event (trace w))
        as [Hr|(pre & ev & post & Htr & Hpre & Hev)].
      * rewrite (run_pending out _ _ Hr) in Hv. discriminate Hv.
      * rewrite Htr in Hv.
        destruct ev as [err|data|p|p|code|err]; try discriminate Hev.
        -- rewrite (run_throw out _ pre post err Hpre) in Hv.
           discriminate Hv.
        -- rewrite (run_close out _ pre post code Hpre) in Hv.
           destruct (code_is_zero code
                     && existsSync (fs_after (files0 w) pre) out) eqn:E;
             [|discriminate Hv].
           apply zero_and_exists in E. destruct E as [-> Hin].
           split; [congruence|]. eauto.
        -- rewrite (run_error out _ pre post err Hpre) in Hv.
           discriminate Hv.
    + intros (-> & pre & post & Htr & Hpre & Hin).
      rewrite Htr, (run_close out _ pre post _ Hpre).
      assert (code_is_zero (Some 0)
              && existsSync (fs_after (files0 w) pre) out = true) as ->;
        [|reflexivity].
      now apply zero_and_exists.
  - intros pre code post Htr Hpre Hno.
    rewrite Htr, (run_close out _ pre post code Hpre).
    destruct (code_is_zero code
              && existsSync (fs_after (files0 w) pre) out) eqn:E.
    + apply zero_and_exists in E. contradiction.
    + eauto.
Qed.

(** The false-success stub: exit code 0, no file written. *)
Lemma synthesize_resolves_iff_witness :
  exists e,
    settled (synthesize posix_env (lit "hello") None (stub [] [] 0)) =
      Promise.Rejected e.
Proof.
  apply (proj2 (synthesize_resolves_iff posix_env (lit "hello") None
                  (stub [] [] 0)) [] (Some 0) []).
  - reflexivity.
  - reflexivity.
  - intros [_ H]. simpl in H. exact (not_elem_of_empty _ H).
Defined.

(** The success stub: exit code 0 after the output file is written. *)
Lemma synthesize_success_stub :
  settled (synthesize posix_env (lit "hello") None
             (stub [] [lit "/tmp/tts-1b4e28ba-2fa1-41d2-883f-0016d3cca427.mp3"] 0))
  = Promise.Fulfilled
      (lit "/tmp/tts-1b4e28ba-2fa1-41d2-883f-0016d3cca427.mp3").
Proof. vm_compute. reflexivity. Qed.

(** X8. A launch failure rejects with the error of the ['error'] event
    itself, and nothing that follows it (the ['close'] of the failed
    launch included) changes that. *)
Lemma synthesize_launch_failure (env : Env) (text : jsstring)
    (options : option (gmap string jsstring)) (fs0 : gset jsstring)
    (pre post : list world_event) (err : JsError) :
  running pre = true ->
  settled (synthesize env text options
             {| files0 := fs0; trace := pre ++ ProcError err :: post |})
  = Promise.Rejected err.
Proof. intros Hr. unfold synthesize. cbn. now apply run_error. Qed.





(** Other exit codes, as they read in the message. *)
Lemma synthesize_exit_codes :
  failure_message (Some 137) [] = lit "TTS failed (code 137): " /\
  failure_message (Some (-2)) [] = lit "TTS failed (code -2): " /\
  failure_message (Some 0) [] = lit "TTS failed (code 0): " /\
  failure_message None [] = lit "TTS failed (code null): ".
Proof. repeat split. Qed.


(** An exit by signal has no code; the message then reads ["code null"]. *)
Lemma synthesize_signal_exit :
  settled (synthesize posix_env (lit "hello") None
             {| files0 := ∅; trace := [StderrData (lit "killed"); Close None] |})
  = Promise.Rejected (MkError (lit "TTS failed (code null): killed")).
Proof. vm_compute. reflexivity. Qed.

Lemma default_basename_inj (u1 u2 : jsstring) :
  default_basename u1 = default_basename u2 -> u1 = u2.
Proof.
  unfold default_basename. intros H.
  apply app_inv_head in H. now apply app_inv_tail in H.
Qed.

(** C5. Each key of the options object that is absent takes its default
    (gender ['female'], rate ['+0%'], pitch ['+0Hz'], volume ['+0%'],
    output the file [tts-<uuid>.mp3] of the temp directory, a name that
    differs whenever the UUID differs), each key that is present is used
    as given, independently of the others, and the resulting five values
    are the ones passed to the spawned process. *)
Theorem synthesize_option_defaults (env : Env) (text : jsstring)
    (options : gmap string jsstring) (w : World) :
  let o := destructure env options in
  arguments (synthesize env text (Some options) w) =
    [PYTHON_SCRIPT env; text; lit "-o"; output o; lit "-g"; gender o;
     lit "-r"; rate o; lit "-p"; pitch o; lit "-v"; volume o] /\
  (options !! "output"%string = None ->
   output o =
     path_join env (tmpdir env) (lit "tts-" ++ randomUUID env ++ lit ".mp3")) /\
  (options !! "gender"%string = None -> gender o = lit "female") /\
  (options !! "rate"%string = None -> rate o = lit "+0%") /\
  (options !! "pitch"%string = None -> pitch o = lit "+0Hz") /\
  (options !! "volume"%string = None -> volume o = lit "+0%") /\
  (forall v, options !! "output"%string = Some v -> output o = v) /\
  (forall v, options !! "gender"%string = Some v -> gender o = v) /\
  (forall v, options !! "rate"%string = Some v -> rate o = v) /\
  (forall v, options !! "pitch"%string = Some v -> pitch o = v) /\
  (forall v, options !! "volume"%string = Some v -> volume o = v) /\
  arguments (synthesize env text None w) =
    [PYTHON_SCRIPT env; text;
     lit "-o";
     path_join env (tmpdir env) (lit "tts-" ++ randomUUID env ++ lit ".mp3");
     lit "-g"; lit "female"; lit "-r"; lit "+0%"; lit "-p"; lit "+0Hz";
     lit "-v"; lit "+0%"] /\
  (forall u1 u2 : jsstring,
     lit "tts-" ++ u1 ++ lit ".mp3" = lit "tts-" ++ u2 ++ lit ".mp3" ->
     u1 = u2).
Proof.
  intros o. subst o. unfold destructure. cbn [output gender rate pitch volume].
  repeat split.
  - intros ->. reflexivity.
  - intros ->. reflexivity.
  - intros ->. reflexivity.
  - intros ->. reflexivity.
  - intros ->. reflexivity.
  - intros v ->. reflexivity.
  - intros v ->. reflexivity.
  - intros v ->. reflexivity.
  - intros v ->. reflexivity.
  - intros v ->. reflexivity.
  - exact default_basename_inj.
Qed.

(** Only [rate] is given: it is used, and [gender] takes its default. *)
Lemma synthesize_option_defaults_witness :
  gender (destructure posix_env {[ "rate"%string := lit "+10%" ]})
    = lit "female" /\
  rate (destructure posix_env {[ "rate"%string := lit "+10%" ]})
    = lit "+10%".
Proof.
  pose proof (synthesize_option_defaults posix_env (lit "hello")
                {[ "rate"%string := lit "+10%" ]} (stub [] [] 0)) as H.
  cbv zeta in H.
  destruct H as (_ & _ & Hg & _ & _ & _ & _ & _ & Hr & _).
  split.
  - apply Hg. reflexivity.
  - apply (Hr (lit "+10%")). reflexivity.
Defined.

(** The arguments of the process when only [rate] is given. *)
Lemma synthesize_only_rate_arguments :
  arguments (synthesize posix_env (lit "hello")
               (Some {[ "rate"%string := lit "+10%" ]}) (stub [] [] 0)) =
    [lit "/opt/smart-tts/tts.py"; lit "hello";
     lit "-o"; lit "/tmp/tts-1b4e28ba-2fa1-41d2-883f-0016d3cca427.mp3";
     lit "-g"; lit "female"; lit "-r"; lit "+10%"; lit "-p"; lit "+0Hz";
     lit "-v"; lit "+0%"].
Proof. vm_compute. reflexivity. Qed.

(* ===================================================================== *)
(** ** Properties of the CLI                                             *)
(* ===================================================================== *)

Section Cli.

Variable env : Env.
Variable node : jsstring.

(** The module is the script being run: CLI mode sees the arguments that
    follow the script path. *)
Lemma main_cli (args : list jsstring) (w : World) :
  main env (node :: module_path env :: args) w = cli_mode env args w.
Proof.
  unfold main. rewrite bool_decide_eq_true_2 by reflexivity. reflexivity.
Qed.

(** Imported by another script, the module runs nothing. *)
Lemma main_imported (argv : list jsstring) (w : World) :
  (argv !! 1%nat) <> Some (module_path env) ->
  main env argv w =
    {| stdout := []; stderr_out := []; exit_status := 0;
       calls := []; spawned := [] |}.
Proof. intros H. unfold main. now rewrite bool_decide_eq_false_2. Qed.

Lemma cli_mode_text (args : list jsstring) (w : World) :
  args <> [] -> includes args (lit "--test") = false ->
  cli_mode env args w = cli_text env args w.
Proof.
  intros Hne Ht. unfold cli_mode. rewrite Ht.
  destruct args as [|a args]; [contradiction|].
  assert ((0 <? Z.of_nat (length (a :: args))) = true) as ->;
    [|reflexivity].
  apply Z.ltb_lt. cbn [length]. lia.
Qed.

Lemma cli_mode_test (args : list jsstring) (w : World) :
  includes args (lit "--test") = true ->
  cli_mode env args w = cli_test env w.
Proof. intros Ht. unfold cli_mode. now rewrite Ht. Qed.

Lemma kept_words (args : list jsstring) (a : jsstring) :
  In a (List.filter (fun a => negb (startsWith a 45)) args) <->
  In a args /\ startsWith a 45 = false.
Proof. rewrite filter_In, negb_true_iff. reflexivity. Qed.

End Cli.

(** C7. Run with no argument, the CLI prints the two usage lines, writes
    nothing to standard error, ends with status 0 and never calls
    [synthesize]. *)
Theorem cli_no_arguments (env : Env) (node : jsstring) (w : World) :
  let r := main env [node; module_path env] w in
  stdout r =
    [lit "Usage: smart-tts " ++ [34] ++ lit "text to speak" ++ [34]
       ++ lit " [-m|--male]";
     lit "       smart-tts --test"] /\
  stderr_out r = [] /\ exit_status r = 0 /\ calls r = [] /\ spawned r = [].
Proof.
  intros r. subst r. rewrite main_cli. unfold cli_mode, includes.
  rewrite bool_decide_eq_false_2 by apply not_elem_of_nil.
  cbn. repeat split.
Qed.

(** C9. In text mode the CLI calls [synthesize] once, with the arguments
    that do not start with ['-'] joined by single spaces; an argument that
    starts with ['-'] is none of the joined words. *)
Theorem cli_text_drops_dash_arguments (env : Env) (node : jsstring)
    (args : list jsstring) (w : World) :
  args <> [] -> includes args (lit "--test") = false ->
  let r := main env (node :: module_path env :: args) w in
  let words := List.filter (fun a => negb (startsWith a 45)) args in
  let options : gmap string jsstring :=
    {[ "gender"%string :=
         if includes args (lit "-m") || includes args (lit "--male")
         then lit "male" else lit "female" ]} in
  calls r = [(join (lit " ") words, Some options)] /\
  spawned r =
    [(lit "python3",
      spawn_args env (join (lit " ") words) (destructure env options))] /\
  (forall a, In a words <-> In a args /\ startsWith a 45 = false) /\
  (forall a, In a args -> startsWith a 45 = true -> ~ In a words).
Proof.
  intros Hne Ht r words options. subst r.
  rewrite main_cli, (cli_mode_text env args w Hne Ht).
  split; [reflexivity | split; [reflexivity | split]].
  - intros a. apply kept_words.
  - intros a _ Hd Hin. apply kept_words in Hin. destruct Hin as [_ Hf].
    congruence.
Qed.

(** [smart-tts --rate fast hello -m world]: the text is ["fast hello
    world"]. *)
Lemma cli_text_drops_dash_arguments_witness :
  calls (main posix_env
           [lit "node"; lit "/opt/smart-tts/index.js";
            lit "--rate"; lit "fast"; lit "hello"; lit "-m"; lit "world"]
           (stub [] [] 1)) =
    [(lit "fast hello world",
      Some {[ "gender"%string := lit "male" ]})].
Proof.
  refine (proj1 (cli_text_drops_dash_arguments posix_env (lit "node")
            [lit "--rate"; lit "fast"; lit "hello"; lit "-m"; lit "world"]
            (stub [] [] 1) _ _)).
  - discriminate.
  - vm_compute. reflexivity.
Defined.

(** C10. With [--test], a failed synthesis prints ["Error: "] and the
    message on standard error and the exit status stays 0; in text mode a
    failed synthesis prints the message and the exit status is 1. *)
Theorem cli_test_failure_exit_zero (env : Env) (node : jsstring)
    (args : list jsstring) (w : World) (e : JsError) :
  let r := main env (node :: module_path env :: args) w in
  (includes args (lit "--test") = true ->
   settled (synthesize env sample_text None w) = Promise.Rejected e ->
   stdout r = [lit "Testing Smart TTS..."] /\
   stderr_out r = [lit "Error: " ++ message e] /\
   exit_status r = 0) /\
  (args <> [] -> includes args (lit "--test") = false ->
   settled (synthesize env (cli_text_of args)
              (Some {[ "gender"%string := cli_gender_of args ]}) w)
     = Promise.Rejected e ->
   stdout r = [] /\
   stderr_out r = [message e] /\
   exit_status r = 1).
Proof.
  intros r. subst r. rewrite main_cli. split.
  - intros Ht He. rewrite (cli_mode_test env args w Ht).
    unfold cli_test. cbn [stdout stderr_out exit_status]. rewrite He.
    repeat split.
  - intros Hne Ht He. rewrite (cli_mode_text env args w Hne Ht).
    unfold cli_text. cbn [stdout stderr_out exit_status]. rewrite He.
    repeat split.
Qed.

(** The backend-failure stub under [--test]: the error is printed and the
    status is 0. *)
Lemma cli_test_failure_exit_zero_witness :
  stderr_out (main posix_env
                [lit "node"; lit "/opt/smart-tts/index.js"; lit "--test"]
                (stub [lit "voice not found"] [] 1)) =
    [lit "Error: TTS failed (code 1): voice not found"] /\
  exit_status (main posix_env
                 [lit "node"; lit "/opt/smart-tts/index.js"; lit "--test"]
                 (stub [lit "voice not found"] [] 1)) = 0.
Proof.
  refine (proj2 (proj1 (cli_test_failure_exit_zero posix_env (lit "node")
            [lit "--test"] (stub [lit "voice not found"] [] 1)
            (MkError (lit "TTS failed (code 1): voice not found"))) _ _)).
  - vm_compute. reflexivity.
  - vm_compute. reflexivity.
Defined.

(** The same stub in text mode: the message is printed and the status
    is 1. *)
Lemma cli_text_failure_exit_one :
  main posix_env [lit "node"; lit "/opt/smart-tts/index.js"; lit "hello"]
       (stub [lit "voice not found"] [] 1) =
    {| stdout := [];
       stderr_out := [lit "TTS failed (code 1): voice not found"];
       exit_status := 1;
       calls := [(lit "hello", Some {[ "gender"%string := lit "female" ]})];
       spawned :=
         [(lit "python3",
           [lit "/opt/smart-tts/tts.py"; lit "hello"; lit "-o";
            lit "/tmp/tts-1b4e28ba-2fa1-41d2-883f-0016d3cca427.mp3";
            lit "-g"; lit "female"; lit "-r"; lit "+0%"; lit "-p";
            lit "+0Hz"; lit "-v"; lit "+0%"])] |}.
Proof. vm_compute. reflexivity. Qed.

(* ===================================================================== *)
(** ** Further properties of detectLanguage                              *)
(* ===================================================================== *)

Section DetectLanguageCases.

(** What each result says about the units of the text. *)
Lemma detectLanguage_cases (text : jsstring) :
  match detectLanguage text with
  | ja => Spec.contains Spec.is_kana text = true
  | yue =>
      Spec.contains Spec.is_kana text = false /\
      Spec.contains Spec.is_cantonese_marker text = true
  | zh =>
      Spec.contains Spec.is_kana text = false /\
      Spec.contains Spec.is_cantonese_marker text = false /\
      Spec.contains Spec.is_han text = true
  | en =>
      Spec.contains Spec.is_kana text = false /\
      Spec.contains Spec.is_cantonese_marker text = false /\
      Spec.contains Spec.is_han text = false /\
      Spec.contains Spec.is_ascii_letter text = true
  | neutral =>
      Spec.contains Spec.is_kana text = false /\
      Spec.contains Spec.is_cantonese_marker text = false /\
      Spec.contains Spec.is_han text = false /\
      Spec.contains Spec.is_ascii_letter text = false
  end.
Proof.
  rewrite detectLanguage_unfold.
  destruct (Spec.contains Spec.is_kana text);
    destruct (Spec.contains Spec.is_cantonese_marker text);
    destruct (Spec.contains Spec.is_han text);
    destruct (Spec.contains Spec.is_ascii_letter text); auto.
Qed.

Lemma no_kana (text : jsstring) :
  Spec.contains Spec.is_kana text = false <->
  forall c, In c text -> ~ 0x3040 <= c <= 0x30FF.
Proof.
  rewrite contains_false. split; intros H c Hin.
  - intros Hc. apply is_kana_range in Hc. rewrite (H c Hin) in Hc.
    discriminate Hc.
  - destruct (Spec.is_kana c) eqn:E; [|reflexivity].
    apply is_kana_range in E. now destruct (H c Hin).
Qed.

Lemma no_han (text : jsstring) :
  Spec.contains Spec.is_han text = false <->
  forall c, In c text -> ~ 0x4E00 <= c <= 0x9FFF.
Proof.
  rewrite contains_false. split; intros H c Hin.
  - intros Hc. apply is_han_range in Hc. rewrite (H c Hin) in Hc.
    discriminate Hc.
  - destruct (Spec.is_han c) eqn:E; [|reflexivity].
    apply is_han_range in E. now destruct (H c Hin).
Qed.

Lemma no_letter (text : jsstring) :
  Spec.contains Spec.is_ascii_letter text = false <->
  forall c, In c text -> ~ 65 <= c <= 90 /\ ~ 97 <= c <= 122.
Proof.
  rewrite contains_false. split; intros H c Hin.
  - specialize (H c Hin).
    split; intros Hc;
      assert (Spec.is_ascii_letter c = true) as E
        by (apply is_ascii_letter_range; lia);
      rewrite H in E; discriminate E.
  - destruct (Spec.is_ascii_letter c) eqn:E; [|reflexivity].
    apply is_ascii_letter_range in E. destruct (H c Hin). lia.
Qed.

Lemma no_han_no_marker (text : jsstring) :
  Spec.contains Spec.is_han text = false ->
  Spec.contains Spec.is_cantonese_marker text = false.
Proof.
  rewrite !contains_false. intros H c Hin.
  destruct (Spec.is_cantonese_marker c) eqn:E; [|reflexivity].
  apply cantonese_marker_is_han in E. rewrite (H c Hin) in E.
  discriminate E.
Qed.

Lemma has_marker (text : jsstring) :
  Spec.contains Spec.is_cantonese_marker text = true <->
  exists c, In c text /\ Regex.class_matches re_cantonese c = true.
Proof.
  rewrite contains_true. split; intros (c & Hin & Hc); exists c;
    (split; [assumption|]).
  - now rewrite cantonese_class.
  - now rewrite <- cantonese_class.
Qed.

Lemma contains_same_units (p : Z -> bool) (t1 t2 : list Z) :
  (forall c, In c t1 <-> In c t2) ->
  Spec.contains p t1 = Spec.contains p t2.
Proof.
  intros H. apply eq_true_iff_eq. rewrite !contains_true.
  split; intros (c & Hin & Hc); exists c; split; try assumption;
    now apply H.
Qed.

End DetectLanguageCases.

(** X1. The result is ['yue'] exactly when no unit lies in the kana
    range U+3040..U+30FF and some unit is one of the sixteen Cantonese
    markers of the source. *)
Theorem detectLanguage_yue_iff (text : jsstring) :
  detectLanguage text = yue <->
  (forall c, In c text -> ~ 0x3040 <= c <= 0x30FF) /\
  (exists c, In c text /\ Regex.class_matches re_cantonese c = true).
Proof.
  rewrite <- no_kana, <- has_marker.
  pose proof (detectLanguage_cases text) as H.
  split.
  - intros E. rewrite E in H. exact H.
  - intros [Hk Hm].
    destruct (detectLanguage text); try reflexivity;
      repeat match goal with H : _ /\ _ |- _ => destruct H end; congruence.
Qed.

(** A marker among ideographs, and no kana. *)
Lemma detectLanguage_yue_iff_witness :
  detectLanguage [0x4F60; 0x5187; 0x597D] = yue.
Proof.
  apply (proj2 (detectLanguage_yue_iff [0x4F60; 0x5187; 0x597D])).
  split.
  - intros c [<-|[<-|[<-|[]]]]; lia.
  - exists 0x5187. split; [simpl; tauto | reflexivity].
Defined.

(** X2. The result is ['zh'] exactly when no unit lies in the kana range,
    no unit is a Cantonese marker and some unit lies in U+4E00..U+9FFF. *)
Theorem detectLanguage_zh_iff (text : jsstring) :
  detectLanguage text = zh <->
  (forall c, In c text -> ~ 0x3040 <= c <= 0x30FF) /\
  (forall c, In c text -> Regex.class_matches re_cantonese c = false) /\
  (exists c, In c text /\ 0x4E00 <= c <= 0x9FFF).
Proof.
  rewrite <- no_kana.
  assert ((forall c, In c text -> Regex.class_matches re_cantonese c = false)
          <-> Spec.contains Spec.is_cantonese_marker text = false) as ->.
  { rewrite contains_false.
    split; intros H c Hin; [rewrite <- cantonese_class | rewrite cantonese_class];
      now apply H. }
  assert ((exists c, In c text /\ 0x4E00 <= c <= 0x9FFF)
          <-> Spec.contains Spec.is_han text = true) as ->.
  { rewrite contains_true.
    split; intros (c & Hin & Hc); exists c; (split; [assumption|]);
      now apply is_han_range. }
  pose proof (detectLanguage_cases text) as H.
  split.
  - intros E. rewrite E in H. exact H.
  - intros (Hk & Hm & Hh).
    destruct (detectLanguage text); try reflexivity;
      repeat match goal with H : _ /\ _ |- _ => destruct H end; congruence.
Qed.

Lemma detectLanguage_zh_iff_witness :
  detectLanguage ([0x4F60; 0x597D] ++ lit " world") = zh.
Proof.
  apply (proj2 (detectLanguage_zh_iff ([0x4F60; 0x597D] ++ lit " world"))).
  split; [|split].
  - intros c Hin. simpl in Hin.
    repeat (destruct Hin as [<-|Hin]; [lia|]). contradiction.
  - intros c Hin. simpl in Hin.
    repeat (destruct Hin as [<-|Hin]; [reflexivity|]). contradiction.
  - exists 0x4F60. split; [simpl; tauto | lia].
Defined.

(** X3. The result is ['en'] exactly when no unit lies in the kana range
    or in U+4E00..U+9FFF and some unit is an ASCII letter. *)
Theorem detectLanguage_en_iff (text : jsstring) :
  detectLanguage text = en <->
  (forall c, In c text -> ~ 0x3040 <= c <= 0x30FF /\ ~ 0x4E00 <= c <= 0x9FFF) /\
  (exists c, In c text /\ (65 <= c <= 90 \/ 97 <= c <= 122)).
Proof.
  assert ((forall c, In c text ->
             ~ 0x3040 <= c <= 0x30FF /\ ~ 0x4E00 <= c <= 0x9FFF)
          <-> Spec.contains Spec.is_kana text = false /\
              Spec.contains Spec.is_han text = false) as ->.
  { rewrite no_kana, no_han. split.
    - intros H. split; intros c Hin; now destruct (H c Hin).
    - intros [H1 H2] c Hin. split; [now apply H1 | now apply H2]. }
  assert ((exists c, In c text /\ (65 <= c <= 90 \/ 97 <= c <= 122))
          <-> Spec.contains Spec.is_ascii_letter text = true) as ->.
  { rewrite contains_true.
    split; intros (c & Hin & Hc); exists c; (split; [assumption|]);
      now apply is_ascii_letter_range. }
  pose proof (detectLanguage_cases text) as H.
  split.
  - intros E. rewrite E in H. tauto.
  - intros ((Hk & Hh) & Hl). pose proof (no_han_no_marker text Hh) as Hm.
    destruct (detectLanguage text); try reflexivity;
      repeat match goal with H : _ /\ _ |- _ => destruct H end; congruence.
Qed.

Lemma detectLanguage_en_iff_witness :
  detectLanguage (lit "Caf" ++ [0xE9] ++ lit " 24/7") = en.
Proof.
  apply (proj2 (detectLanguage_en_iff (lit "Caf" ++ [0xE9] ++ lit " 24/7"))).
  split.
  - intros c Hin. simpl in Hin.
    repeat (destruct Hin as [<-|Hin]; [lia|]). contradiction.
  - exists 67. split; [simpl; tauto | lia].
Defined.

(** X4. The result is ['neutral'] exactly when every unit lies outside
    U+3040..U+30FF, outside U+4E00..U+9FFF and outside A-Z and a-z. *)
Theorem detectLanguage_neutral_iff (text : jsstring) :
  detectLanguage text = neutral <->
  forall c, In c text ->
    ~ 0x3040 <= c <= 0x30FF /\ ~ 0x4E00 <= c <= 0x9FFF /\
    ~ 65 <= c <= 90 /\ ~ 97 <= c <= 122.
Proof.
  split.
  - intros E. pose proof (detectLanguage_cases text) as H. rewrite E in H.
    destruct H as (Hk & _ & Hh & Hl). intros c Hin.
    split; [exact (proj1 (no_kana text) Hk c Hin)|].
    split; [exact (proj1 (no_han text) Hh c Hin)|].
    exact (proj1 (no_letter text) Hl c Hin).
  - apply neutral_outside_ranges.
Qed.

Lemma detectLanguage_neutral_iff_witness :
  detectLanguage (lit "+1 (555) 010-9999" ++ [0xFF01; 0x3002]) = neutral.
Proof.
  apply (proj2 (detectLanguage_neutral_iff
                  (lit "+1 (555) 010-9999" ++ [0xFF01; 0x3002]))).
  intros c Hin. simpl in Hin.
  repeat (destruct Hin as [<-|Hin]; [lia|]). contradiction.
Defined.

(** X5. The result depends only on which units occur in the text: two
    texts with the same units, in any order and any number of times, get
    the same tag. *)
Theorem detectLanguage_same_units (t1 t2 : jsstring) :
  (forall c, In c t1 <-> In c t2) ->
  detectLanguage t1 = detectLanguage t2.
Proof.
  intros H. rewrite !detectLanguage_unfold.
  rewrite (contains_same_units Spec.is_kana t1 t2 H),
    (contains_same_units Spec.is_cantonese_marker t1 t2 H),
    (contains_same_units Spec.is_han t1 t2 H),
    (contains_same_units Spec.is_ascii_letter t1 t2 H).
  reflexivity.
Qed.

(** One ideograph after many letters, or many ideographs before one
    letter. *)
Lemma detectLanguage_same_units_witness :
  detectLanguage (lit "aaaa" ++ [0x4E16]) =
  detectLanguage [0x4E16; 0x4E16; 0x4E16; 97].
Proof.
  apply detectLanguage_same_units.
  intros c. simpl. tauto.
Defined.

(** X6. The tag of a concatenation is the tag of the part whose test
    comes first in the chain ja, yue, zh, en, neutral. *)
Theorem detectLanguage_app (a b : jsstring) :
  detectLanguage (a ++ b) = stronger (detectLanguage a) (detectLanguage b).
Proof.
  rewrite !detectLanguage_unfold. unfold Spec.contains.
  rewrite !existsb_app.
  destruct (existsb Spec.is_kana a), (existsb Spec.is_kana b),
    (existsb Spec.is_cantonese_marker a),
    (existsb Spec.is_cantonese_marker b),
    (existsb Spec.is_han a), (existsb Spec.is_han b),
    (existsb Spec.is_ascii_letter a), (existsb Spec.is_ascii_letter b);
    reflexivity.
Qed.

(** X7. A text made of code points above the Basic Multilingual Plane
    only (CJK Extension B, Kana Supplement, emoji) is ['neutral']: its
    surrogate units are in no tested range. *)
Theorem detectLanguage_supplementary (cps : list Z) :
  (forall cp, In cp cps -> 0x10000 <= cp) ->
  detectLanguage (utf16 cps) = neutral.
Proof.
  intros H. apply neutral_outside_ranges. intros u Hu.
  unfold utf16 in Hu. apply in_flat_map in Hu.
  destruct Hu as (cp & Hcp & Hin).
  destruct (utf16_units_cases cp) as [E|[_ Hs]].
  - rewrite E in Hin. destruct Hin as [<-|[]]. specialize (H cp Hcp). lia.
  - specialize (Hs u Hin). lia.
Qed.

(** U+20000 (Extension B), U+1B000 (Kana Supplement), U+1F600. *)
Lemma detectLanguage_supplementary_witness :
  detectLanguage (utf16 [0x20000; 0x1B000; 0x1F600]) = neutral.
Proof.
  apply detectLanguage_supplementary.
  intros cp [<-|[<-|[<-|[]]]]; lia.
Defined.

(* ===================================================================== *)
(** ** Further properties of synthesize                                  *)
(* ===================================================================== *)

(** [python3] is missing: ['error'], then ['close'] with the errno. *)
Lemma synthesize_launch_failure_witness :
  settled (synthesize posix_env (lit "hello") None
             {| files0 := ∅;
                trace := [ProcError (MkError (lit "spawn python3 ENOENT"));
                          Close (Some (-2))] |})
  = Promise.Rejected (MkError (lit "spawn python3 ENOENT")).
Proof.
  apply (synthesize_launch_failure posix_env (lit "hello") None ∅ []
           [Close (Some (-2))] (MkError (lit "spawn python3 ENOENT"))).
  reflexivity.
Defined.

Section SynthesizeTraces.

Lemma running_stderr (chunks : list jsstring) :
  running (map StderrData chunks) = true.
Proof. induction chunks as [|c cs IH]; [reflexivity | exact IH]. Qed.

Lemma fs_after_stderr (fs : gset jsstring) (chunks : list jsstring) :
  fs_after fs (map StderrData chunks) = fs.
Proof. induction chunks as [|c cs IH]; [reflexivity | exact IH]. Qed.

End SynthesizeTraces.

(** The call to [spawn] throws: the promise is rejected with the
    exception, whatever the trace holds after it. *)
Lemma synthesize_spawn_threw (env : Env) (text : jsstring)
    (options : option (gmap string jsstring)) (fs0 : gset jsstring)
    (post : list world_event) (err : JsError) :
  settled (synthesize env text options
             {| files0 := fs0; trace := SpawnThrew err :: post |})
  = Promise.Rejected err.
Proof. unfold synthesize. cbn. now apply (run_throw _ fs0 []). Qed.

(** An argument with U+0000, in a world that obeys the check of [spawn]:
    the call is rejected, and the promise is never left pending. *)
Lemma synthesize_null_byte (env : Env) (text : jsstring)
    (options : option (gmap string jsstring)) (w : World) :
  obeys_spawn_check env text options w ->
  existsb has_null
    (lit "python3"
       :: spawn_args env text (destructure env (default ∅ options)))
    = true ->
  exists err, settled (synthesize env text options w) = Promise.Rejected err.
Proof.
  intros Hw Hn. destruct (Hw Hn) as (err & rest & Htr).
  exists err. destruct w as [fs0 tr]. cbn in Htr. subst tr.
  apply synthesize_spawn_threw.
Qed.

(** X9. The promise stays pending exactly as long as the trace holds
    neither an exception of the call to [spawn], nor a ['close'], nor an
    ['error']: stderr data and file changes never settle it, and there is
    no timeout. *)
Theorem synthesize_pending_iff (env : Env) (text : jsstring)
    (options : option (gmap string jsstring)) (w : World) :
  obeys_spawn_check env text options w ->
  (settled (synthesize env text options w) = Promise.Pending <->
   running (trace w) = true).
Proof.
  intros _. unfold synthesize. cbn [settled].
  set (out := output (destructure env (default ∅ options))).
  split.
  - intros Hp.
    destruct (first_settling_event (trace w))
      as [Hr|(pre & ev & post & Htr & Hpre & Hev)]; [exact Hr|].
    rewrite Htr in Hp.
    destruct ev as [err|data|p|p|code|err]; try discriminate Hev.
    + rewrite (run_throw out _ pre post err Hpre) in Hp. discriminate Hp.
    + rewrite (run_close out _ pre post code Hpre) in Hp.
      destruct (code_is_zero code
                && existsSync (fs_after (files0 w) pre) out);
        discriminate Hp.
    + rewrite (run_error out _ pre post err Hpre) in Hp. discriminate Hp.
  - apply run_pending.
Qed.

(** The process writes to stderr and creates its file but never exits. *)
Lemma synthesize_pending_iff_witness :
  settled (synthesize posix_env (lit "hello") None
             {| files0 := ∅;
                trace := [StderrData (lit "working");
                          FileCreated (default_output posix_env)] |})
  = Promise.Pending.
Proof.
  refine (proj2 (synthesize_pending_iff posix_env (lit "hello") None
                   {| files0 := ∅;
                      trace := [StderrData (lit "working");
                                FileCreated (default_output posix_env)] |}
                   _) eq_refl).
  intros H. discriminate H.
Defined.

(** X10. The first ['close'] or ['error'] decides: whatever follows it
    (more stderr, file changes, another exit event) leaves the outcome as
    it was. *)
Theorem synthesize_settles_once (env : Env) (text : jsstring)
    (options : option (gmap string jsstring)) (fs0 : gset jsstring)
    (pre post : list world_event) (ev : world_event) :
  running pre = true -> is_running_event ev = false ->
  settled (synthesize env text options
             {| files0 := fs0; trace := pre ++ ev :: post |}) =
  settled (synthesize env text options
             {| files0 := fs0; trace := pre ++ [ev] |}).
Proof.
  intros Hpre Hev. unfold synthesize. cbn [settled files0 trace].
  set (out := output (destructure env (default ∅ options))).
  destruct ev as [err|data|p|p|code|err]; try discriminate Hev.
  - now rewrite !(run_throw out fs0 pre _ err Hpre).
  - now rewrite !(run_close out fs0 pre _ code Hpre).
  - now rewrite !(run_error out fs0 pre _ err Hpre).
Qed.

(** A failed exit, then the file appears and a second exit reports 0. *)
Lemma synthesize_settles_once_witness :
  settled (synthesize posix_env (lit "hello") None
             {| files0 := ∅;
                trace := [Close (Some 1);
                          FileCreated (default_output posix_env);
                          Close (Some 0)] |})
  = Promise.Rejected (MkError (lit "TTS failed (code 1): ")).
Proof.
  rewrite (synthesize_settles_once posix_env (lit "hello") None ∅ []
             [FileCreated (default_output posix_env); Close (Some 0)]
             (Close (Some 1)) eq_refl eq_refl).
  reflexivity.
Defined.

(** X11. The existence check cannot tell a stale file from a new one: when
    the output path is already on disk at the spawn and the process only
    writes to stderr before it exits with code 0, the call resolves with
    that path although the process wrote no file. *)
Theorem synthesize_stale_output (env : Env) (text : jsstring)
    (options : option (gmap string jsstring)) (fs0 : gset jsstring)
    (chunks : list jsstring) (post : list world_event) :
  let out := output (destructure env (default ∅ options)) in
  out ∈ fs0 ->
  settled (synthesize env text options
             {| files0 := fs0;
                trace := map StderrData chunks ++ Close (Some 0) :: post |})
  = Promise.Fulfilled out.
Proof.
  intros out Hin. unfold synthesize. cbn [settled files0 trace]. fold out.
  rewrite (run_close out fs0 _ post (Some 0) (running_stderr chunks)).
  rewrite fs_after_stderr.
  assert (code_is_zero (Some 0) && existsSync fs0 out = true) as ->;
    [|reflexivity].
  now apply zero_and_exists.
Qed.

(** [out.mp3] is left from an earlier run; the backend writes nothing. *)
Lemma synthesize_stale_output_witness :
  settled (synthesize posix_env (lit "hello")
             (Some {[ "output"%string := lit "out.mp3" ]})
             {| files0 := {[ lit "out.mp3" ]};
                trace := [StderrData (lit "warning"); Close (Some 0)] |})
  = Promise.Fulfilled (lit "out.mp3").
Proof.
  exact (synthesize_stale_output posix_env (lit "hello")
           (Some {[ "output"%string := lit "out.mp3" ]})
           {[ lit "out.mp3" ]} [lit "warning"] []
           (proj2 (elem_of_singleton (C:=gset jsstring)
                     (lit "out.mp3") (lit "out.mp3")) eq_refl)).
Defined.




(** X13. The message of a failed exit determines the exit code and the
    diagnostic text: two failures with the same message had the same code
    ([null] included) and the same stderr text. *)
Theorem failure_message_inj (c1 c2 : option Z) (s1 s2 : jsstring) :
  failure_message c1 s1 = failure_message c2 s2 -> c1 = c2 /\ s1 = s2.
Proof.
  unfold failure_message. intros H. apply app_inv_head in H.
  change (lit "): ") with (41 :: lit ": ") in H.
  rewrite <- !app_comm_cons in H.
  apply cut_at_paren in H; try apply template_code_no_paren.
  destruct H as [Hc Hs]. apply app_inv_head in Hs.
  split; [now apply template_code_inj | exact Hs].
Qed.

Lemma failure_message_inj_witness :
  Some 1 = Some 1 /\ lit "a): b" = lit "a): b".
Proof.
  exact (failure_message_inj (Some 1) (Some 1) (lit "a): b") (lit "a): b")
           eq_refl).
Defined.

(* ===================================================================== *)
(** ** Further properties of the CLI                                     *)
(* ===================================================================== *)

Section CliRuns.

Lemma includes_true (xs : list jsstring) (x : jsstring) :
  includes xs x = true <-> In x xs.
Proof. unfold includes. now rewrite bool_decide_eq_true, list_elem_of_In. Qed.

Lemma includes_false (xs : list jsstring) (x : jsstring) :
  includes xs x = false <-> ~ In x xs.
Proof. unfold includes. now rewrite bool_decide_eq_false, list_elem_of_In. Qed.

(** The CLI never passes [output]: the path is always the default one. *)
Lemma output_without_key (env : Env) (options : gmap string jsstring) :
  options !! "output"%string = None ->
  output (destructure env options) = default_output env.
Proof. intros H. unfold destructure. cbn [output]. now rewrite H. Qed.

Lemma gender_only_output (env : Env) (g : jsstring) :
  output (destructure env {[ "gender"%string := g ]}) = default_output env.
Proof. apply output_without_key. now apply lookup_singleton_ne. Qed.

Lemma gender_only_destructure (env : Env) (g : jsstring) :
  destructure env {[ "gender"%string := g ]} =
    {| output := default_output env; gender := g; rate := lit "+0%";
       pitch := lit "+0Hz"; volume := lit "+0%" |}.
Proof.
  unfold destructure.
  rewrite lookup_singleton_eq, !lookup_singleton_ne by done.
  reflexivity.
Qed.

(** The outcome of a call made by the CLI, from the first exit event. *)
Lemma cli_call_close (env : Env) (text : jsstring)
    (options : option (gmap string jsstring)) (w : World)
    (pre post : list world_event) (code : option Z) :
  output (destructure env (default ∅ options)) = default_output env ->
  trace w = pre ++ Close code :: post -> running pre = true ->
  settled (synthesize env text options w) =
    if code_is_zero code
       && existsSync (fs_after (files0 w) pre) (default_output env)
    then Promise.Fulfilled (default_output env)
    else Promise.Rejected (MkError (failure_message code (stderr_text pre))).
Proof.
  intros Ho Htr Hpre. unfold synthesize. cbn [settled].
  rewrite Ho, Htr. now apply run_close.
Qed.

Lemma cli_call_error (env : Env) (text : jsstring)
    (options : option (gmap string jsstring)) (w : World)
    (pre post : list world_event) (err : JsError) :
  trace w = pre ++ ProcError err :: post -> running pre = true ->
  settled (synthesize env text options w) = Promise.Rejected err.
Proof.
  intros Htr Hpre. unfold synthesize. cbn [settled].
  rewrite Htr. now apply run_error.
Qed.


End CliRuns.

(** X14. [--test] anywhere among the arguments wins: every other argument
    (text and [-m] included) is ignored and the run is that of
    [smart-tts --test]. *)
Theorem cli_test_overrides (env : Env) (node : jsstring)
    (args : list jsstring) (w : World) :
  In (lit "--test") args ->
  main env (node :: module_path env :: args) w =
  main env [node; module_path env; lit "--test"] w.
Proof.
  intros Hin. rewrite !main_cli.
  rewrite (cli_mode_test env args w (proj2 (includes_true _ _) Hin)).
  symmetry. apply cli_mode_test. apply includes_true. now left.
Qed.

(** [smart-tts hello -m --test] runs the smoke test with the sample
    text. *)
Lemma cli_test_overrides_witness :
  calls (main posix_env
           [lit "node"; lit "/opt/smart-tts/index.js";
            lit "hello"; lit "-m"; lit "--test"] (stub [] [] 1))
  = [(sample_text, None)].
Proof.
  change (lit "/opt/smart-tts/index.js") with (module_path posix_env).
  rewrite (cli_test_overrides posix_env (lit "node")
             [lit "hello"; lit "-m"; lit "--test"] (stub [] [] 1)).
  - reflexivity.
  - simpl. tauto.
Defined.

(** X15. In text mode the one process spawned is [python3] with the
    script, the text, the default output path and the neutral rate, pitch
    and volume; the gender is ['male'] when [-m] or [--male] is one of the
    arguments and ['female'] otherwise. The CLI has no way to set the
    other options. *)
Theorem cli_text_spawn (env : Env) (node : jsstring)
    (args : list jsstring) (w : World) :
  args <> [] -> ~ In (lit "--test") args ->
  exists g,
    spawned (main env (node :: module_path env :: args) w) =
      [(lit "python3",
        [PYTHON_SCRIPT env;
         join (lit " ") (List.filter (fun a => negb (startsWith a 45)) args);
         lit "-o";
         path_join env (tmpdir env)
           (lit "tts-" ++ randomUUID env ++ lit ".mp3");
         lit "-g"; g; lit "-r"; lit "+0%"; lit "-p"; lit "+0Hz";
         lit "-v"; lit "+0%"])] /\
    ((In (lit "-m") args \/ In (lit "--male") args) /\ g = lit "male" \/
     ~ (In (lit "-m") args \/ In (lit "--male") args) /\ g = lit "female").
Proof.
  intros Hne Ht. exists (cli_gender_of args). split.
  - rewrite main_cli,
      (cli_mode_text env args w Hne (proj2 (includes_false _ _) Ht)).
    change (spawned (cli_text env args w))
      with [(lit "python3",
             spawn_args env (cli_text_of args)
               (destructure env
                  {[ "gender"%string := cli_gender_of args ]}))].
    rewrite gender_only_destructure. reflexivity.
  - unfold cli_gender_of.
    destruct (includes args (lit "-m")) eqn:E1;
      [left; split; [left; now apply includes_true | reflexivity]|].
    destruct (includes args (lit "--male")) eqn:E2;
      [left; split; [right; now apply includes_true | reflexivity]|].
    right. split; [|reflexivity].
    apply includes_false in E1, E2. tauto.
Qed.

(** [smart-tts hello --male]. *)
Lemma cli_text_spawn_witness :
  exists g,
    spawned (main posix_env
               [lit "node"; lit "/opt/smart-tts/index.js";
                lit "hello"; lit "--male"] (stub [] [] 0)) =
      [(lit "python3",
        [lit "/opt/smart-tts/tts.py"; lit "hello"; lit "-o";
         lit "/tmp/tts-1b4e28ba-2fa1-41d2-883f-0016d3cca427.mp3";
         lit "-g"; g; lit "-r"; lit "+0%"; lit "-p"; lit "+0Hz";
         lit "-v"; lit "+0%"])].
Proof.
  destruct (cli_text_spawn posix_env (lit "node")
              [lit "hello"; lit "--male"] (stub [] [] 0))
    as (g & Hg & _).
  - discriminate.
  - intros [H|[H|[]]]; discriminate H.
  - exists g. exact Hg.
Defined.



(** X17. End to end, on success: when the process exits with code 0 while
    the default output file is on disk, text mode prints exactly that path
    on standard output and [--test] prints ["Generated: "] and the path
    after its banner; nothing goes to standard error and the status
    is 0. *)
Theorem cli_success_prints_path (env : Env) (node : jsstring)
    (args : list jsstring) (w : World) (pre post : list world_event) :
  trace w = pre ++ Close (Some 0) :: post -> running pre = true ->
  default_output env ∈ fs_after (files0 w) pre ->
  let r := main env (node :: module_path env :: args) w in
  (In (lit "--test") args ->
   stdout r = [lit "Testing Smart TTS...";
               lit "Generated: " ++ default_output env] /\
   stderr_out r = [] /\ exit_status r = 0) /\
  (args <> [] -> ~ In (lit "--test") args ->
   stdout r = [default_output env] /\
   stderr_out r = [] /\ exit_status r = 0).
Proof.
  intros Htr Hpre Hin r. subst r. rewrite main_cli.
  assert (Hok : code_is_zero (Some 0)
                && existsSync (fs_after (files0 w) pre) (default_output env)
                = true) by now apply zero_and_exists.
  split.
  - intros Ht.
    rewrite (cli_mode_test env args w (proj2 (includes_true _ _) Ht)).
    unfold cli_test. cbn [stdout stderr_out exit_status].
    rewrite (cli_call_close env sample_text None w pre post (Some 0)
               (output_without_key env ∅ (lookup_empty _)) Htr Hpre), Hok.
    repeat split.
  - intros Hne Ht.
    rewrite (cli_mode_text env args w Hne (proj2 (includes_false _ _) Ht)).
    unfold cli_text. cbn [stdout stderr_out exit_status].
    rewrite (cli_call_close env _ (Some _) w pre post (Some 0)
               (gender_only_output env _) Htr Hpre), Hok.
    repeat split.
Qed.

(** The success stub in text mode. *)
Lemma cli_success_prints_path_witness :
  stdout (main posix_env
            [lit "node"; lit "/opt/smart-tts/index.js"; lit "hello"]
            (stub [] [default_output posix_env] 0))
  = [lit "/tmp/tts-1b4e28ba-2fa1-41d2-883f-0016d3cca427.mp3"].
Proof.
  refine (proj1 (proj2 (cli_success_prints_path posix_env (lit "node")
            [lit "hello"] (stub [] [default_output posix_env] 0)
            [FileCreated (default_output posix_env)] [] eq_refl eq_refl _)
            _ _)).
  - change (default_output posix_env
            ∈ ({[default_output posix_env]} ∪ ∅ : gset jsstring)).
    apply elem_of_union_l, elem_of_singleton. reflexivity.
  - discriminate.
  - intros [H|[]]. discriminate H.
Defined.

(** X18. The exit status is 0 or 1, and it is 1 exactly when the module is
    the script run, there is at least one argument, none is [--test], and
    the promise of the call is rejected. A rejected [--test] run, the
    usage, a success and an import all end with 0. *)
Theorem cli_exit_status_iff (env : Env) (argv : list jsstring) (w : World) :
  let r := main env argv w in
  let args := drop 2 argv in
  (exit_status r = 0 \/ exit_status r = 1) /\
  (exit_status r = 1 <->
   (argv !! 1%nat) = Some (module_path env) /\ args <> [] /\
   ~ In (lit "--test") args /\
   exists e,
     settled (synthesize env
                (join (lit " ")
                   (List.filter (fun a => negb (startsWith a 45)) args))
                (Some {[ "gender"%string := cli_gender_of args ]}) w)
     = Promise.Rejected e).
Proof.
  intros r args. subst r. unfold main.
  destruct (bool_decide_reflect (argv !! 1%nat = Some (module_path env)))
    as [Hg|Hg]; fold args.
  2:{ cbn [exit_status]. split; [now left|].
      split; [discriminate | intros (H & _); contradiction]. }
  unfold cli_mode.
  destruct (includes args (lit "--test")) eqn:Et.
  { apply includes_true in Et. cbn [cli_test exit_status].
    split; [now left|]. split; [discriminate | tauto]. }
  apply includes_false in Et.
  destruct args as [|a args'] eqn:Ea.
  { cbn. split; [now left|].
    split; [discriminate | intros (_ & H & _); contradiction]. }
  assert ((0 <? Z.of_nat (length (a :: args'))) = true) as ->
    by (apply Z.ltb_lt; cbn [length]; lia).
  unfold cli_text. cbn [exit_status]. fold (cli_text_of (a :: args')).
  destruct (settled (synthesize env (cli_text_of (a :: args'))
              (Some {[ "gender"%string := cli_gender_of (a :: args') ]}) w))
    as [|v|e] eqn:Es.
  - split; [now left|].
    split; [discriminate | intros (_ & _ & _ & e & He); discriminate He].
  - split; [now left|].
    split; [discriminate | intros (_ & _ & _ & e & He); discriminate He].
  - split; [now right|]. split; [|reflexivity].
    intros _. repeat split; try assumption; [discriminate | eauto].
Qed.

(** The backend-failure stub in text mode: status 1. *)
Lemma cli_exit_status_iff_witness :
  exit_status (main posix_env
                 [lit "node"; lit "/opt/smart-tts/index.js"; lit "hello"]
                 (stub [lit "voice not found"] [] 1)) = 1.
Proof.
  apply (proj2 (proj2 (cli_exit_status_iff posix_env
                  [lit "node"; lit "/opt/smart-tts/index.js"; lit "hello"]
                  (stub [lit "voice not found"] [] 1)))).
  split; [reflexivity|]. split; [discriminate|].
  split; [intros [H|[]]; discriminate H|].
  exists (MkError (lit "TTS failed (code 1): voice not found")).
  vm_compute. reflexivity.
Defined.

(** X20. End to end, when the process cannot be launched: text mode
    prints the message of the launch error and ends with status 1;
    [--test] prints it after ["Error: "] and ends with status 0. No
    ["TTS failed"] text is added. *)
Theorem cli_launch_failure (env : Env) (node : jsstring)
    (args : list jsstring) (w : World) (pre post : list world_event)
    (err : JsError) :
  trace w = pre ++ ProcError err :: post -> running pre = true ->
  let r := main env (node :: module_path env :: args) w in
  (In (lit "--test") args ->
   stdout r = [lit "Testing Smart TTS..."] /\
   stderr_out r = [lit "Error: " ++ message err] /\ exit_status r = 0) /\
  (args <> [] -> ~ In (lit "--test") args ->
   stdout r = [] /\ stderr_out r = [message err] /\ exit_status r = 1).
Proof.
  intros Htr Hpre r. subst r. rewrite main_cli. split.
  - intros Ht.
    rewrite (cli_mode_test env args w (proj2 (includes_true _ _) Ht)).
    unfold cli_test. cbn [stdout stderr_out exit_status].
    rewrite (cli_call_error env sample_text None w pre post err Htr Hpre).
    repeat split.
  - intros Hne Ht.
    rewrite (cli_mode_text env args w Hne (proj2 (includes_false _ _) Ht)).
    unfold cli_text. cbn [stdout stderr_out exit_status].
    rewrite (cli_call_error env _ (Some _) w pre post err Htr Hpre).
    repeat split.
Qed.

(** [python3] is missing, text mode. *)
Lemma cli_launch_failure_witness :
  stderr_out (main posix_env
                [lit "node"; lit "/opt/smart-tts/index.js"; lit "hello"]
                {| files0 := ∅;
                   trace := [ProcError (MkError (lit "spawn python3 ENOENT"));
                             Close (Some (-2))] |})
  = [lit "spawn python3 ENOENT"].
Proof.
  refine (proj1 (proj2 (proj2 (cli_launch_failure posix_env (lit "node")
            [lit "hello"]
            {| files0 := ∅;
               trace := [ProcError (MkError (lit "spawn python3 ENOENT"));
                         Close (Some (-2))] |}
            [] [Close (Some (-2))] (MkError (lit "spawn python3 ENOENT"))
            eq_refl eq_refl) _ _))).
  - discriminate.
  - intros [H|[]]. discriminate H.
Defined.

Section CliArguments.

Lemma join_cons_nonempty (sep p : jsstring) (l : list jsstring) :
  l <> [] -> join sep (p :: l) = p ++ sep ++ join sep l.
Proof. destruct l; [contradiction | reflexivity]. Qed.

Lemma join_merge (sep x y : jsstring) (ws l : list jsstring) :
  join sep (ws ++ x :: y :: l) = join sep (ws ++ (x ++ sep ++ y) :: l).
Proof.
  induction ws as [|p ws IH].
  - destruct l as [|z l]; cbn [app join]; [reflexivity|].
    now rewrite <- !app_assoc.
  - cbn [app]. rewrite !join_cons_nonempty, IH; [reflexivity | |];
      now destruct ws.
Qed.

(** A flag is none of the words, and no word is one of the flags. *)
Lemma dash_word_ne (a x : jsstring) :
  startsWith a 45 = false -> startsWith x 45 = true -> a <> x.
Proof. intros Ha Hx ->. congruence. Qed.

(** Only three things are read from the arguments: whether there are
    any, which of [--test], [-m] and [--male] occur, and the words. *)
Lemma cli_mode_same (env : Env) (args1 args2 : list jsstring) (w : World) :
  (args1 = [] <-> args2 = []) ->
  (forall x, startsWith x 45 = true -> In x args1 <-> In x args2) ->
  cli_text_of args1 = cli_text_of args2 ->
  cli_mode env args1 w = cli_mode env args2 w.
Proof.
  intros Hnil Hflags Htext.
  assert (Hinc : forall x, startsWith x 45 = true ->
                           includes args1 x = includes args2 x).
  { intros x Hx. apply eq_true_iff_eq. rewrite !includes_true.
    now apply Hflags. }
  unfold cli_mode. rewrite (Hinc (lit "--test") eq_refl).
  destruct (includes args2 (lit "--test")); [reflexivity|].
  destruct args1 as [|a1 l1], args2 as [|a2 l2]; try reflexivity.
  - destruct Hnil as [H _]. discriminate (H eq_refl).
  - destruct Hnil as [_ H]. discriminate (H eq_refl).
  - assert ((0 <? Z.of_nat (length (a1 :: l1))) = true) as ->
      by (apply Z.ltb_lt; cbn [length]; lia).
    assert ((0 <? Z.of_nat (length (a2 :: l2))) = true) as ->
      by (apply Z.ltb_lt; cbn [length]; lia).
    unfold cli_text, cli_gender_of.
    rewrite Htext, (Hinc (lit "-m") eq_refl), (Hinc (lit "--male") eq_refl).
    reflexivity.
Qed.

Lemma filter_words_app (l1 l2 : list jsstring) :
  List.filter (fun a => negb (startsWith a 45)) (l1 ++ l2) =
  List.filter (fun a => negb (startsWith a 45)) l1
  ++ List.filter (fun a => negb (startsWith a 45)) l2.
Proof. apply List.filter_app. Qed.

End CliArguments.

(** X21. Quoting does not matter: two adjacent words give the same run as
    the one argument made of them with a space between, wherever they
    stand among the arguments. *)
Theorem cli_words_merge (env : Env) (node : jsstring)
    (before after : list jsstring) (a b : jsstring) (w : World) :
  startsWith a 45 = false -> startsWith b 45 = false ->
  main env (node :: module_path env :: before ++ a :: b :: after) w =
  main env (node :: module_path env
              :: before ++ (a ++ lit " " ++ b) :: after) w.
Proof.
  intros Ha Hb. rewrite !main_cli.
  assert (Hab : startsWith (a ++ lit " " ++ b) 45 = false).
  { destruct a as [|c a]; [reflexivity | exact Ha]. }
  apply cli_mode_same.
  - split; intros H; destruct before; discriminate H.
  - intros x Hx. rewrite !in_app_iff. cbn [In].
    pose proof (dash_word_ne a x Ha Hx).
    pose proof (dash_word_ne b x Hb Hx).
    pose proof (dash_word_ne _ x Hab Hx). tauto.
  - unfold cli_text_of. rewrite !filter_words_app. cbn [List.filter].
    rewrite Ha, Hb, Hab. cbn [negb]. apply join_merge.
Qed.

(** [smart-tts -m good morning] and [smart-tts -m "good morning"]. *)
Lemma cli_words_merge_witness :
  main posix_env
    [lit "node"; lit "/opt/smart-tts/index.js";
     lit "-m"; lit "good"; lit "morning"] (stub [] [] 1) =
  main posix_env
    [lit "node"; lit "/opt/smart-tts/index.js";
     lit "-m"; lit "good morning"] (stub [] [] 1).
Proof.
  exact (cli_words_merge posix_env (lit "node") [lit "-m"] []
           (lit "good") (lit "morning") (stub [] [] 1) eq_refl eq_refl).
Defined.

(** X22. An argument that starts with ['-'] may stand anywhere: moving it
    to the front of the arguments does not change the run. *)
Theorem cli_flag_position (env : Env) (node : jsstring)
    (before after : list jsstring) (f : jsstring) (w : World) :
  startsWith f 45 = true ->
  main env (node :: module_path env :: before ++ f :: after) w =
  main env (node :: module_path env :: f :: before ++ after) w.
Proof.
  intros Hf. rewrite !main_cli. apply cli_mode_same.
  - split; intros H; destruct before; discriminate H.
  - intros x _. cbn [In]. rewrite !in_app_iff. cbn [In]. tauto.
  - unfold cli_text_of. cbn [List.filter].
    rewrite !filter_words_app. cbn [List.filter].
    rewrite Hf. reflexivity.
Qed.

(** [smart-tts hello -m there] and [smart-tts -m hello there]. *)
Lemma cli_flag_position_witness :
  main posix_env
    [lit "node"; lit "/opt/smart-tts/index.js";
     lit "hello"; lit "-m"; lit "there"] (stub [] [] 1) =
  main posix_env
    [lit "node"; lit "/opt/smart-tts/index.js";
     lit "-m"; lit "hello"; lit "there"] (stub [] [] 1).
Proof.
  exact (cli_flag_position posix_env (lit "node") [lit "hello"]
           [lit "there"] (lit "-m") (stub [] [] 1) eq_refl).
Defined.

(** X23. An argument that starts with ['-'] and is none of [--test], [-m]
    and [--male] is dropped without a word: as long as another argument
    is left, the run is the same as without it. *)
Theorem cli_unknown_flag_ignored (env : Env) (node : jsstring)
    (before after : list jsstring) (f : jsstring) (w : World) :
  startsWith f 45 = true ->
  f <> lit "--test" -> f <> lit "-m" -> f <> lit "--male" ->
  before ++ after <> [] ->
  main env (node :: module_path env :: before ++ f :: after) w =
  main env (node :: module_path env :: before ++ after) w.
Proof.
  intros Hf Ht Hm Hmale Hne. rewrite !main_cli.
  unfold cli_mode.
  assert (Hinc : forall x, f <> x ->
            includes (before ++ f :: after) x = includes (before ++ after) x).
  { intros x Hx. apply eq_true_iff_eq. rewrite !includes_true.
    rewrite !in_app_iff. cbn [In]. tauto. }
  rewrite (Hinc _ Ht).
  destruct (includes (before ++ after) (lit "--test")); [reflexivity|].
  assert ((0 <? Z.of_nat (length (before ++ f :: after))) = true) as ->.
  { apply Z.ltb_lt. rewrite length_app. cbn [length]. lia. }
  assert ((0 <? Z.of_nat (length (before ++ after))) = true) as ->.
  { apply Z.ltb_lt. destruct (before ++ after); [contradiction|].
    cbn [length]. lia. }
  unfold cli_text, cli_gender_of, cli_text_of.
  rewrite (Hinc _ Hm), (Hinc _ Hmale), !filter_words_app.
  cbn [List.filter]. rewrite Hf. reflexivity.
Qed.

(** [smart-tts hello --rate +10%] is [smart-tts hello +10%]. *)
Lemma cli_unknown_flag_ignored_witness :
  main posix_env
    [lit "node"; lit "/opt/smart-tts/index.js";
     lit "hello"; lit "--rate"; lit "+10%"] (stub [] [] 1) =
  main posix_env
    [lit "node"; lit "/opt/smart-tts/index.js";
     lit "hello"; lit "+10%"] (stub [] [] 1).
Proof.
  refine (cli_unknown_flag_ignored posix_env (lit "node") [lit "hello"]
            [lit "+10%"] (lit "--rate") (stub [] [] 1) eq_refl _ _ _ _);
    discriminate.
Defined.
